(** * GakuNin RDM content provider ([repo2docker/contentproviders/rdm.py])

    A shallow embedding of the [RDM] content provider and the properties of
    its host configuration, locator detection, recursive fetch and content
    identity.

    Python values keep their dynamic shape where the code depends on it: the
    host configuration is a decoded JSON value, exceptions are values of
    [exn], and the filesystem and the hand-off queue are threaded as explicit
    state.  The libraries the module calls (urllib, uuid, json.dumps, the
    osfclient remote client) are parameters of the sections that use them. *)

From Stdlib Require Import Ascii String.
From stdpp Require Import base option list strings pretty gmap.

#[local] Set Warnings "-register-all".
#[local] Arguments String.append !_ _ : simpl nomatch.
Local Open Scope string_scope.

(* ===================================================================== *)
(** ** Python [str] operations used by the module *)
(* ===================================================================== *)

Module PyStr.

(** [s.startswith(p)] *)
Fixpoint startswith (s p : string) {struct p} : bool :=
  match p, s with
  | EmptyString, _ => true
  | String _ _, EmptyString => false
  | String a p', String b s' => if Ascii.eqb a b then startswith s' p' else false
  end.

(** [c in s] for a one-character string [c] *)
Fixpoint contains (c : ascii) (s : string) : bool :=
  match s with
  | EmptyString => false
  | String a s' => if Ascii.eqb a c then true else contains c s'
  end.

(** [sub in s] for an arbitrary string [sub] *)
Fixpoint is_substring (sub s : string) : bool :=
  startswith s sub ||
  match s with
  | EmptyString => false
  | String _ s' => is_substring sub s'
  end.

(** [s.split(c, 1)] as the pair (head, tail) around the first [c]; a
    string without [c] is its own head. *)
Fixpoint split_first (c : ascii) (s : string) : string * string :=
  match s with
  | EmptyString => (EmptyString, EmptyString)
  | String a s' =>
      if Ascii.eqb a c then (EmptyString, s')
      else let '(h, t) := split_first c s' in (String a h, t)
  end.

(** [s.index(c)]: [None] stands for the [ValueError] of a missing [c]. *)
Fixpoint index (c : ascii) (s : string) : option nat :=
  match s with
  | EmptyString => None
  | String a s' => if Ascii.eqb a c then Some 0 else S <$> index c s'
  end.

(** [s[:n]] *)
Fixpoint take (n : nat) (s : string) : string :=
  match n, s with
  | S n', String a s' => String a (take n' s')
  | _, _ => EmptyString
  end.

(** [s[n:]] *)
Fixpoint drop (n : nat) (s : string) : string :=
  match n, s with
  | S n', String _ s' => drop n' s'
  | _, _ => s
  end.

(** [s.endswith(c)] for a one-character string [c] *)
Fixpoint endswith (c : ascii) (s : string) : bool :=
  match s with
  | EmptyString => false
  | String a EmptyString => Ascii.eqb a c
  | String _ s' => endswith c s'
  end.

(** [s[:-1]] *)
Fixpoint drop_last (s : string) : string :=
  match s with
  | EmptyString => EmptyString
  | String _ EmptyString => EmptyString
  | String a s' => String a (drop_last s')
  end.

(** [s.rstrip(c)] for a one-character string [c] *)
Fixpoint rstrip (c : ascii) (s : string) : string :=
  match s with
  | EmptyString => EmptyString
  | String a s' =>
      match rstrip c s' with
      | EmptyString => if Ascii.eqb a c then EmptyString else String a EmptyString
      | r => String a r
      end
  end.

(** [len(s) != 0], the truth value of [len(s)] *)
Definition nonempty (s : string) : bool :=
  match s with EmptyString => false | _ => true end.

End PyStr.

Definition slash : ascii := "/"%char.
Definition backslash : ascii := "\"%char.

(** [os.path.join(a, b)] of [posixpath], two arguments. *)
Definition path_join (a b : string) : string :=
  if PyStr.startswith b "/" then b
  else if negb (PyStr.nonempty a) || PyStr.endswith slash a then a ++ b
  else a ++ "/" ++ b.

(* ===================================================================== *)
(** ** Exceptions and decoded JSON values *)
(* ===================================================================== *)

Inductive exn : Type :=
| ValueError (msg : string)
| RuntimeError (msg : string)
| KeyError (key : string)
| TypeError
| AttributeError
| FileExistsError (path : string)
| FileNotFoundError (path : string)
| NotADirectoryError (path : string)
| IsADirectoryError (path : string)
| ClientError (msg : string).     (* raised by a library the module calls *)

(** The outcome of a computation that raises or returns. *)
Definition result (A : Type) : Type := exn + A.

Definition rbind {A B} (m : result A) (k : A -> result B) : result B :=
  match m with
  | inl e => inl e
  | inr a => k a
  end.

Notation "'let?' x ':=' m 'in' k" := (rbind m (fun x => k))
  (at level 10, x pattern, m at level 100, k at level 200).

(** What [json.load] returns: [None], [bool], a number (kept as its
    literal), [str], [list], and [dict] as the list of its items. *)
Inductive json : Type :=
| JNull
| JBool (b : bool)
| JNum (lit : string)
| JStr (s : string)
| JArr (items : list json)
| JObj (items : list (string * json)).

Module Py.

(** Item lookup of a [dict] given by its items. *)
Fixpoint assoc (key : string) (items : list (string * json)) : option json :=
  match items with
  | [] => None
  | (k, v) :: rest => if String.eqb k key then Some v else assoc key rest
  end.

Definition is_str (key : string) (v : json) : bool :=
  match v with JStr s => String.eqb s key | _ => false end.

(** [key in v] for a string [key] *)
Definition contains (key : string) (v : json) : result bool :=
  match v with
  | JObj items => inr (if assoc key items is Some _ then true else false)
  | JStr s => inr (PyStr.is_substring key s)
  | JArr items => inr (existsb (is_str key) items)
  | JNull | JBool _ | JNum _ => inl TypeError
  end.

(** [v[key]] for a string [key] *)
Definition getitem (v : json) (key : string) : result json :=
  match v with
  | JObj items =>
      match assoc key items with
      | Some x => inr x
      | None => inl (KeyError key)
      end
  | _ => inl TypeError
  end.

(** [isinstance(v, list)] *)
Definition is_list (v : json) : bool :=
  match v with JArr _ => true | _ => false end.

(** The items [for x in v] runs over. *)
Definition iter (v : json) : result (list json) :=
  match v with
  | JArr items => inr items
  | JObj items => inr (JStr <$> items.*1)
  | JStr s => inr ((fun c => JStr (String c EmptyString)) <$> list_ascii_of_string s)
  | JNull | JBool _ | JNum _ => inl TypeError
  end.

End Py.

(* ===================================================================== *)
(** ** The provider object and its construction ([RDM.__init__]) *)
(* ===================================================================== *)

(** The attributes of an [RDM] instance.  [project_id], [path] and [uuid] are
    unset until a [detect] call matches. *)
Record RDM : Type := mkRDM {
  hosts : json;
  project_id : option string;
  path : option string;
  uuid : option string;
}.

(** The two environment variables [__init__] reads, each with the outcome of
    loading it: [RDM_HOSTS] names a file that is opened and decoded,
    [RDM_HOSTS_JSON] is decoded in place. *)
Record Environ : Type := mkEnviron {
  RDM_HOSTS : option (result json);
  RDM_HOSTS_JSON : option (result json);
}.

Definition default_hosts : json :=
  JArr [ JObj [ ("hostname", JArr [ JStr "https://test.some.host.nii.ac.jp/" ]);
                ("api", JStr "https://api.test.some.host.nii.ac.jp/v2/") ] ].

(** The value of [self.hosts] before validation: the default, replaced by
    the content of the [RDM_HOSTS] file, replaced by [RDM_HOSTS_JSON]. *)
Definition load_hosts (env : Environ) : result json :=
  let hosts0 := default_hosts in
  let? hosts1 := match RDM_HOSTS env with
                 | Some loaded => loaded
                 | None => inr hosts0
                 end in
  match RDM_HOSTS_JSON env with
  | Some loaded => loaded
  | None => inr hosts1
  end.

Section Construction.

(** [json.dumps], used only in error messages. *)
Variable json_dumps : json -> string.

(** The body of the validation loop, for one [host]. *)
Definition check_host (host : json) : result unit :=
  let? has_hostname := Py.contains "hostname" host in
  if negb has_hostname then inl (ValueError ("No hostname: " ++ json_dumps host))
  else
    let? hostname := Py.getitem host "hostname" in
    if negb (Py.is_list hostname)
    then inl (ValueError ("hostname should be list of string: " ++ json_dumps hostname))
    else
      let? has_api := Py.contains "api" host in
      if negb has_api then inl (ValueError ("No api: " ++ json_dumps host))
      else inr tt.

Fixpoint check_hosts (l : list json) : result unit :=
  match l with
  | [] => inr tt
  | host :: rest => let? _ := check_host host in check_hosts rest
  end.

Definition init (env : Environ) : result RDM :=
  let? loaded := load_hosts env in
  let? _ := match loaded with
            | JArr l => check_hosts l
            | _ => inr tt
            end in
  inr (mkRDM loaded None None None).

End Construction.

(* ===================================================================== *)
(** ** Locator detection ([RDM.detect]) and content identity *)
(* ===================================================================== *)

(** The dictionary [detect] returns and [fetch] consumes, by key. *)
Record FetchSpec : Type := mkFetchSpec {
  spec_project_id : string;
  spec_path : string;
  spec_host : json;
  spec_uuid : string;
}.

(** [RDM._check_ref_defined] *)
Definition _check_ref_defined (ref : option string) : bool :=
  match ref with
  | None => false
  | Some r => if String.eqb r "HEAD" then false else true
  end.

(** The path handling of [detect], from [u.path] to [(project_id, path)]. *)
Definition parse_path (upath : string) : string * string :=
  let path := if PyStr.startswith upath "/" then PyStr.drop 1 upath else upath in
  if PyStr.contains slash path then
    let '(pid, p) := PyStr.split_first slash path in
    (pid, if PyStr.startswith p "files/" then PyStr.drop (String.length "files/") p else p)
  else (path, "").

(** [[source.startswith(s) for s in names]] *)
Fixpoint startswith_each (source : string) (names : list json) : result (list bool) :=
  match names with
  | [] => inr []
  | JStr s :: rest =>
      let? bs := startswith_each source rest in inr (PyStr.startswith source s :: bs)
  | _ :: _ => inl TypeError
  end.

(** [any([source.startswith(s) for s in host["hostname"]])] *)
Definition host_matches (source : string) (host : json) : result bool :=
  let? hostname := Py.getitem host "hostname" in
  let? names := Py.iter hostname in
  let? bs := startswith_each source names in
  inr (existsb id bs).

Section Detection.

(** [urlparse(source).path]; [urlparse] raises [ValueError] on some inputs. *)
Variable urlparse_path : string -> result string.

(** [str(uuid.uuid1())] at the [n]-th call of the process. *)
Variable uuid1 : nat -> string.

(** The loop of [detect] over the hosts still to try.  [clock] counts the
    identifiers generated so far; the result carries the returned value,
    the updated instance and the updated clock. *)
Fixpoint detect_loop (self : RDM) (clock : nat) (source : string)
    (ref : option string) (hs : list json)
  : result (option FetchSpec * RDM * nat) :=
  match hs with
  | [] => inr (None, self, clock)
  | host :: rest =>
      let? m := host_matches source host in
      if m then
        let? upath := urlparse_path source in
        let '(pid, p) := parse_path upath in
        let '(u, clock') :=
          match ref with
          | Some r => if _check_ref_defined ref then (r, clock)
                      else (uuid1 clock, S clock)
          | None => (uuid1 clock, S clock)
          end in
        inr (Some (mkFetchSpec pid p host u),
             mkRDM (hosts self) (Some pid) (Some p) (Some u),
             clock')
      else detect_loop self clock source ref rest
  end.

Definition detect (self : RDM) (clock : nat) (source : string)
    (ref : option string) : result (option FetchSpec * RDM * nat) :=
  let? hs := Py.iter (hosts self) in
  detect_loop self clock source ref hs.

End Detection.

(** [RDM.content_id]; reading an attribute no [detect] has set raises. *)
Definition content_id (self : RDM) : result string :=
  match project_id self, uuid self with
  | Some p, Some u => inr (p ++ "-" ++ u)
  | _, _ => inl AttributeError
  end.

(* ===================================================================== *)
(** ** The local filesystem and the remote tree *)
(* ===================================================================== *)

Abbreviation bytes := (list Byte.byte).

(** The local filesystem, as the path strings of the code see it:
    [fs_dirs] holds the strings that name an existing directory and
    [fs_files] the strings that name a regular file, with its contents.
    Two strings are two keys, also when they would name the same
    directory ([a/b] and [a//b]); permissions, links and the other kinds
    of file are left out. *)
Record FS : Type := mkFS {
  fs_dirs : gset string;
  fs_files : gmap string bytes;
}.

(** The proper ancestors of a path: its prefixes that end before a ["/"]. *)
Fixpoint parents_from (pre rest : string) : list string :=
  match rest with
  | EmptyString => []
  | String a rest' =>
      (if Ascii.eqb a slash && PyStr.nonempty pre then [pre] else [])
      ++ parents_from (pre ++ String a EmptyString) rest'
  end.

Definition parents (p : string) : list string := parents_from "" p.

(** [os.path.basename(p)]: what follows the last ["/"]. *)
Fixpoint basename (p : string) : string :=
  match p with
  | EmptyString => EmptyString
  | String a rest =>
      if Ascii.eqb a slash then basename rest
      else if PyStr.contains slash rest then basename rest
      else p
  end.

(** The names ["."] and [".."]. *)
Definition dot_name (name : string) : bool :=
  String.eqb name "." || String.eqb name "..".

(** [os.path.isdir(p)]; the empty path names nothing. *)
Definition isdir (fs : FS) (p : string) : bool :=
  PyStr.nonempty p && bool_decide (p ∈ fs_dirs fs).

(** [os.path.isfile(p)] *)
Definition is_file (fs : FS) (p : string) : bool :=
  if fs_files fs !! p is Some _ then true else false.

(** The directory a path lies in exists: it is the root, or it is a
    directory under its name with or without its trailing slashes. *)
Definition dir_exists (fs : FS) (head : string) : bool :=
  negb (PyStr.nonempty (PyStr.rstrip slash head))
  || isdir fs head || isdir fs (PyStr.rstrip slash head).

(** [os.makedirs(p)], with the filesystem it leaves.  It raises
    [FileNotFoundError] on the empty path, [NotADirectoryError] when an
    ancestor is a regular file, and [FileExistsError] when [p] exists
    already; a path that ends in [".."] exists as soon as its ancestors
    are made, and one that ends in ["."] is made with its ancestors.
    Otherwise it creates [p] and its missing ancestors. *)
Definition makedirs (fs : FS) (p : string) : result unit * FS :=
  let q := PyStr.rstrip slash p in
  let ancestors_made := mkFS (list_to_set (parents q) ∪ fs_dirs fs) (fs_files fs) in
  let made := mkFS ({[ p ]} ∪ list_to_set (parents p) ∪ fs_dirs fs) (fs_files fs) in
  if negb (PyStr.nonempty p) then (inl (FileNotFoundError p), fs)
  else if existsb (is_file fs) (parents q) then (inl (NotADirectoryError p), fs)
  else if String.eqb (basename q) ".." then (inl (FileExistsError p), ancestors_made)
  else if String.eqb (basename q) "." then
    match last (parents q) with
    | Some head => if dir_exists fs head then (inl (FileExistsError p), fs)
                   else (inr tt, made)
    | None => (inl (FileExistsError p), fs)
    end
  else if negb (PyStr.nonempty q) || isdir fs p || isdir fs q || is_file fs q
  then (inl (FileExistsError p), fs)
  else (inr tt, made).

(** [open(p, "wb")], with the filesystem it leaves.  It raises
    [FileNotFoundError] on the empty path and when the directory of [p] is
    missing, [NotADirectoryError] when an ancestor is a regular file, and
    [IsADirectoryError] when [p] ends with a slash, names a directory or
    ends in ["."] or [".."]; otherwise it leaves an empty regular file at
    [p]. *)
Definition open_wb (fs : FS) (p : string) : result unit * FS :=
  if negb (PyStr.nonempty p) then (inl (FileNotFoundError p), fs)
  else if PyStr.endswith slash p then (inl (IsADirectoryError p), fs)
  else if existsb (is_file fs) (parents p) then (inl (NotADirectoryError p), fs)
  else if match last (parents p) with
          | Some head => negb (dir_exists fs head)
          | None => false
          end
  then (inl (FileNotFoundError p), fs)
  else if isdir fs p || dot_name (basename p) then (inl (IsADirectoryError p), fs)
  else (inr tt, mkFS (fs_dirs fs) (<[ p := [] ]> (fs_files fs))).

(** A remote file: [name], [path], and what [write_to] does, which is to
    write [file_data] and then raise [file_error] if there is one. *)
Record RFile : Type := mkRFile {
  file_name : string;
  file_path : string;
  file_data : bytes;
  file_error : option exn;
}.

(** A remote storage or folder: [name], and the two listings [files] and
    [folders], each of which may raise after its last item. *)
Inductive Folder : Type := mkFolder {
  folder_name : string;
  files : list RFile;
  files_error : option exn;
  folders : list Folder;
  folders_error : option exn;
}.

(* ===================================================================== *)
(** ** The walk: state, effects and [RDM._fetch_storage] *)
(* ===================================================================== *)

(** The state a fetch acts on: the filesystem, the history of completed
    copies (local path and bytes, oldest first), and the progress lines
    handed to the consumer so far.  A generator's [yield] and the
    [queue.put] that forwards it in [_fetch] are one step here. *)
Record World : Type := mkWorld {
  w_fs : FS;
  w_copied : list (string * bytes);
  w_queue : list string;
}.

Definition M (A : Type) : Type := World -> result A * World.

Definition ret {A} (a : A) : M A := fun w => (inr a, w).
Definition raise {A} (e : exn) : M A := fun w => (inl e, w).

Definition bind {A B} (m : M A) (k : A -> M B) : M B :=
  fun w => match m w with
           | (inl e, w') => (inl e, w')
           | (inr a, w') => k a w'
           end.

Notation "'let*' x ':=' m 'in' k" := (bind m (fun x => k))
  (at level 10, x pattern, m at level 100, k at level 200).
Notation "m ;; k" := (bind m (fun _ => k))
  (at level 100, k at level 200, right associativity).

(** A pure computation that may raise, run inside a fetch. *)
Definition lift {A} (r : result A) : M A := fun w => (r, w).

(** A filesystem call, which returns or raises and leaves a filesystem. *)
Definition fs_call (f : FS -> result unit * FS) : M unit :=
  fun w => let '(r, fs') := f (w_fs w) in
           (r, mkWorld fs' (w_copied w) (w_queue w)).

(** [yield line] / [await queue.put(line)] *)
Definition put (line : string) : M unit :=
  fun w => (inr tt, mkWorld (w_fs w) (w_copied w) (w_queue w ++ [line])).

(** [await file_.write_to(f)] for [f] opened at [p], and the close of [f]. *)
Definition write_to (file_ : RFile) (p : string) : M unit :=
  fun w =>
    let fs' := mkFS (fs_dirs (w_fs w)) (<[ p := file_data file_ ]> (fs_files (w_fs w))) in
    match file_error file_ with
    | Some e => (inl e, mkWorld fs' (w_copied w) (w_queue w))
    | None => (inr tt, mkWorld fs' (w_copied w ++ [(p, file_data file_)]) (w_queue w))
    end.

(** The end of a listing: raise its error, if it has one. *)
Definition raise_opt (e : option exn) : M unit :=
  match e with
  | Some e => raise e
  | None => ret tt
  end.

Section ForEach.

Context {A : Type} (body : A -> M unit).

(** [async for x in l: body(x)] *)
Fixpoint for_each (l : list A) : M unit :=
  match l with
  | [] => ret tt
  | x :: rest => body x ;; for_each rest
  end.

End ForEach.

Definition nl : string := String (ascii_of_nat 10) EmptyString.

Definition has_separator (name : string) : bool :=
  PyStr.contains slash name || PyStr.contains backslash name.

(** ["Fetch: {} ({} to {})\n".format(file_.path, local_path, output_dir)] *)
Definition fetch_line (file_ : RFile) (local_path output_dir : string) : string :=
  "Fetch: " ++ file_path file_ ++ " (" ++ local_path ++ " to " ++ output_dir ++ ")" ++ nl.

Definition local_path_of (local_dir : option string) (name : string) : string :=
  match local_dir with
  | Some d => path_join d name
  | None => name
  end.

(** The body of the loop over [storage.files]. *)
Definition fetch_file (output_dir : string) (local_dir : option string)
    (file_ : RFile) : M unit :=
  if has_separator (file_name file_)
  then raise (ValueError ("File.name cannot include path separators: " ++ file_name file_))
  else
    let local_path := local_path_of local_dir (file_name file_) in
    let local_dir_path := match local_dir with
                          | Some d => path_join output_dir d
                          | None => output_dir
                          end in
    let local_file_path := path_join output_dir local_path in
    (fun w => if isdir (w_fs w) local_dir_path then ret tt w
              else fs_call (fun fs => makedirs fs local_dir_path) w) ;;
    fs_call (fun fs => open_wb fs local_file_path) ;;
    write_to file_ local_file_path ;;
    put (fetch_line file_ local_path output_dir).

(** The name check of the loop over [storage.folders]. *)
Definition check_folder_name (name : string) : M unit :=
  if has_separator name
  then raise (ValueError ("Folder.name cannot include path separators: " ++ name))
  else ret tt.

(** [RDM._fetch_storage] *)
Fixpoint _fetch_storage (storage : Folder) (output_dir : string)
    (local_dir : option string) {struct storage} : M unit :=
  for_each (fetch_file output_dir local_dir) (files storage) ;;
  raise_opt (files_error storage) ;;
  for_each (fun folder =>
              check_folder_name (folder_name folder) ;;
              let local_folder_dir := local_path_of local_dir (folder_name folder) in
              _fetch_storage folder output_dir (Some local_folder_dir))
           (folders storage) ;;
  raise_opt (folders_error storage).

(* ===================================================================== *)
(** ** The walk order *)
(* ===================================================================== *)

(** One entry of a walk: a file met under a local directory, a folder about
    to be entered, or the error that ends a listing. *)
Inductive step : Type :=
| SFile (local_dir : option string) (file_ : RFile)
| SEnter (name : string)
| SRaise (e : exn).

Definition exec_step (output_dir : string) (s : step) : M unit :=
  match s with
  | SFile local_dir file_ => fetch_file output_dir local_dir file_
  | SEnter name => check_folder_name name
  | SRaise e => raise e
  end.

Definition run_steps (output_dir : string) (steps : list step) : M unit :=
  for_each (exec_step output_dir) steps.

Definition listing_end (e : option exn) : list step :=
  match e with
  | Some e => [SRaise e]
  | None => []
  end.

(** The entries of a storage or folder in the order the specification
    gives: the files of a level, then each folder followed by its own
    entries, depth first. *)
Fixpoint walk_order (storage : Folder) (local_dir : option string) {struct storage}
  : list step :=
  ((SFile local_dir <$> files storage)
     ++ listing_end (files_error storage)
     ++ (folder ← folders storage;
         SEnter (folder_name folder)
           :: walk_order folder (Some (local_path_of local_dir (folder_name folder))))
     ++ listing_end (folders_error storage))%list.

(** An entry whose name holds a path separator. *)
Definition offending (s : step) : option exn :=
  match s with
  | SFile _ file_ =>
      if has_separator (file_name file_)
      then Some (ValueError ("File.name cannot include path separators: " ++ file_name file_))
      else None
  | SEnter name =>
      if has_separator name
      then Some (ValueError ("Folder.name cannot include path separators: " ++ name))
      else None
  | SRaise _ => None
  end.

(* ===================================================================== *)
(** ** [RDM._fetch], [RDM._fetch_with_error] and [RDM.fetch] *)
(* ===================================================================== *)

(** What the consumer finds on the queue: a progress line, an exception, or
    the [None] that ends the stream. *)
Inductive qitem : Type :=
| QLine (line : string)
| QExc (e : exn)
| QEnd.

(** How the generator [fetch] ends: it returns, it raises, or it waits on an
    empty queue for ever. *)
Inductive ending : Type :=
| Finished
| Raised (e : exn)
| Blocked.

(** The [while True] loop of [fetch] over the items the producer queued. *)
Fixpoint drain (q : list qitem) : list string * ending :=
  match q with
  | [] => ([], Blocked)
  | QExc e :: _ => ([], Raised e)
  | QEnd :: _ => ([], Finished)
  | QLine line :: rest => let '(ls, o) := drain rest in (line :: ls, o)
  end.

Section Fetch.

(** The remote client (osfclient).  A project is whatever [osf.project]
    returns; the node [find_by_path] returns is used as a storage or
    folder, as the annotation of [_fetch_storage] has it. *)
Variable Project : Type.

(** [OSF(token=token, base_url=base_url).project(project_id)] *)
Variable osf_project : option json -> string -> string -> result Project.

(** [project.storage(name)] *)
Variable project_storage : Project -> string -> result Folder.

(** [project.storages]: the storages listed, and the error that ends the
    listing if there is one. *)
Variable project_storages : Project -> list Folder * option exn.

(** [find_by_path(storage, path)]: the node, or [None]. *)
Variable find_by_path : Folder -> string -> result (option Folder).

(** [os.getenv("OSF_TOKEN")] *)
Variable OSF_TOKEN : option string.

(** ["Fetching RDM directory {} on {} at {}.\n".format(path, project_id, api_url)] *)
Definition fetching_line (path project_id api_url : string) : string :=
  "Fetching RDM directory " ++ path ++ " on " ++ project_id ++ " at " ++ api_url
    ++ "." ++ nl.

(** [host["api"][:-1] if host["api"].endswith("/") else host["api"]] *)
Definition api_url_of (host : json) : result string :=
  let? api := Py.getitem host "api" in
  match api with
  | JStr s => inr (if PyStr.endswith slash s then PyStr.drop_last s else s)
  | _ => inl AttributeError
  end.

(** [host["token"] if "token" in host else os.getenv("OSF_TOKEN")] *)
Definition token_of (host : json) : result (option json) :=
  let? has_token := Py.contains "token" host in
  if has_token then let? t := Py.getitem host "token" in inr (Some t)
  else inr (JStr <$> OSF_TOKEN).

(** The branch of [_fetch] for a non-empty [path]: the node to walk. *)
Definition resolve (project : Project) (path : string) : result Folder :=
  let path := PyStr.rstrip slash path in
  let? name := if PyStr.contains slash path
               then match PyStr.index slash path with
                    | Some i => inr (PyStr.take i path)
                    | None => inl (ValueError "substring not found")
                    end
               else inr path in
  let? storage := project_storage project name in
  if PyStr.contains slash path then
    match PyStr.index slash path with
    | Some i =>
        let? found := find_by_path storage (PyStr.drop (i + 1) path) in
        match found with
        | None => inl (RuntimeError ("Could not find path " ++ path))
        | Some node => inr node
        end
    | None => inl (ValueError "substring not found")
    end
  else inr storage.

(** [RDM._fetch] *)
Definition _fetch (spec : FetchSpec) (output_dir : string) : M unit :=
  let project_id := spec_project_id spec in
  let path := spec_path spec in
  let host := spec_host spec in
  let* api_url := lift (api_url_of host) in
  put (fetching_line path project_id api_url) ;;
  let* token := lift (token_of host) in
  let* project := lift (osf_project token api_url project_id) in
  if PyStr.nonempty path then
    let* storage := lift (resolve project path) in
    _fetch_storage storage output_dir None
  else
    for_each (fun storage => _fetch_storage storage output_dir (Some (folder_name storage)))
             (fst (project_storages project)) ;;
    raise_opt (snd (project_storages project)).

(** [RDM._fetch_with_error], run to its end on an empty queue: the items
    it leaves on the queue, with the filesystem and the copies made. *)
Definition _fetch_with_error (spec : FetchSpec) (output_dir : string) (fs : FS)
  : list qitem * World :=
  let '(r, w) := _fetch spec output_dir (mkWorld fs [] []) in
  (((QLine <$> w_queue w)
      ++ match r with inl e => [QExc e] | inr _ => [] end
      ++ [QEnd])%list,
   w).

(** [RDM.fetch], consumed to its end: the lines it yields, how it ends, and
    the state the producer leaves. *)
Definition fetch (spec : FetchSpec) (output_dir : string) (fs : FS)
  : list string * ending * World :=
  let '(q, w) := _fetch_with_error spec output_dir fs in
  (drain q, w).

(** The entries a fetch walks, in order: those of the node a non-empty
    sub-path resolves to, walked without a local directory, or those of
    every storage of the project, each under the name of its storage. *)
Definition roots_order (project : Project) (path : string) : result (list step) :=
  if PyStr.nonempty path then
    let? node := resolve project path in
    inr (walk_order node None)
  else
    inr ((storage ← fst (project_storages project);
          walk_order storage (Some (folder_name storage)))
           ++ listing_end (snd (project_storages project)))%list.

End Fetch.

(* ===================================================================== *)
(** ** A remote service given by its tree *)
(* ===================================================================== *)

Module TreeClient.

(** Modelled from the spec: the remote client is a library outside this
    repository.  A project is the list of its storages; a project id
    unknown to the service, and a storage the project does not have, are
    errors; a sub-path is resolved by matching folder names segment by
    segment, and a missing segment gives [None]. *)
Definition Project : Type := list Folder.

Definition osf_project (remote : gmap string Project)
    (token : option json) (base_url project_id : string) : result Project :=
  match remote !! project_id with
  | Some p => inr p
  | None => inl (ClientError ("Project not found: " ++ project_id))
  end.

Definition child (name : string) (l : list Folder) : option Folder :=
  List.find (fun f => String.eqb (folder_name f) name) l.

Definition project_storage (p : Project) (name : string) : result Folder :=
  match child name p with
  | Some s => inr s
  | None => inl (RuntimeError ("Project has no storage provider '" ++ name ++ "'"))
  end.

Definition project_storages (p : Project) : list Folder * option exn := (p, None).

(** [path.split("/")] *)
Fixpoint segments (path : string) : list string :=
  match path with
  | EmptyString => [EmptyString]
  | String a rest =>
      if Ascii.eqb a slash then EmptyString :: segments rest
      else match segments rest with
           | seg :: segs => String a seg :: segs
           | [] => [String a EmptyString]
           end
  end.

Fixpoint descend (node : Folder) (segs : list string) : option Folder :=
  match segs with
  | [] => Some node
  | seg :: rest =>
      match child seg (folders node) with
      | Some next => descend next rest
      | None => None
      end
  end.

Definition find_by_path (storage : Folder) (path : string) : result (option Folder) :=
  inr (descend storage (segments path)).

End TreeClient.

(* ===================================================================== *)
(** ** Sample values *)
(* ===================================================================== *)

Module Sample.

(** [urlparse(source).path] on a source of the shape
    [scheme://netloc/path], without parameters, query or fragment. *)
Definition urlparse_path (source : string) : result string :=
  let '(_, after_scheme) := PyStr.split_first ":"%char source in
  let rest := PyStr.drop 2 after_scheme in
  match PyStr.index slash rest with
  | Some i => inr (PyStr.drop i rest)
  | None => inr ""
  end.

Definition uuid1 (n : nat) : string := "uuid-" ++ pretty n.

Definition json_dumps (v : json) : string := "<json>".

Definition default_host : json :=
  JObj [ ("hostname", JArr [ JStr "https://test.some.host.nii.ac.jp/" ]);
         ("api", JStr "https://api.test.some.host.nii.ac.jp/v2/") ].

Definition self : RDM := mkRDM default_hosts None None None.

Definition a_txt : RFile :=
  mkRFile "a.txt" "/a.txt" [Byte.x68; Byte.x69] None.

Definition b_txt : RFile :=
  mkRFile "b.txt" "/dir/b.txt" [Byte.x62; Byte.x79; Byte.x65] None.

Definition dir : Folder := mkFolder "dir" [b_txt] None [] None.

Definition osfstorage : Folder := mkFolder "osfstorage" [a_txt] None [dir] None.

Definition broken : Folder :=
  mkFolder "osfstorage" [a_txt] None [mkFolder "a/b" [b_txt] None [] None] None.

Definition remote : gmap string TreeClient.Project :=
  {[ "abc" := [osfstorage]; "bad" := [broken] ]}.

Definition empty_fs : FS := mkFS ∅ ∅.

Definition fetch (spec : FetchSpec) (output_dir : string) (fs : FS) :=
  fetch TreeClient.Project (TreeClient.osf_project remote) TreeClient.project_storage
        TreeClient.project_storages TreeClient.find_by_path None spec output_dir fs.

End Sample.

(* ===================================================================== *)
(** ** Predicates of the statements *)
(* ===================================================================== *)

(** A host object whose ["hostname"] is a list of strings. *)
Definition well_formed_host (h : json) : Prop :=
  ∃ items names,
    h = JObj items ∧ Py.assoc "hostname" items = Some (JArr (JStr <$> names)).

(** A host object one of whose hostnames is a prefix of [source]. *)
Definition host_has_prefix (source : string) (h : json) : Prop :=
  ∃ items names p,
    h = JObj items ∧ Py.assoc "hostname" items = Some (JArr (JStr <$> names))
    ∧ p ∈ names ∧ PyStr.startswith source p = true.

(** A host object that fails one of the three checks of the constructor. *)
Definition malformed_host (items : list (string * json)) : Prop :=
  Py.assoc "hostname" items = None
  ∨ (∃ v, Py.assoc "hostname" items = Some v ∧ Py.is_list v = false)
  ∨ Py.assoc "api" items = None.

(** A host object with a non-empty list of hostnames and a non-empty api. *)
Definition nonempty_host (h : json) : Prop :=
  ∃ items n names api,
    h = JObj items ∧ Py.assoc "hostname" items = Some (JArr (n :: names))
    ∧ Py.assoc "api" items = Some (JStr api) ∧ api ≠ "".

(** The identifier and the clock a matching [detect] leaves, by [ref]. *)
Definition session_of (uuid1 : nat -> string) (clock : nat) (ref : option string)
  : string * nat :=
  match ref with
  | Some r => if _check_ref_defined ref then (r, clock) else (uuid1 clock, S clock)
  | None => (uuid1 clock, S clock)
  end.

(** A completed copy: the remote file and its local relative path; the
    line it is reported with, and the write it is recorded as. *)
Definition copy_line (output_dir : string) (c : RFile * string) : string :=
  fetch_line c.1 c.2 output_dir.

Definition copy_write (output_dir : string) (c : RFile * string) : string * bytes :=
  (path_join output_dir c.2, file_data c.1).

(** A computation that queues one ["Fetch:"] line per copy it completes,
    in the same order, and queues nothing else. *)
Definition tracks (output_dir : string) {A} (m : M A) : Prop :=
  ∀ w r w', m w = (r, w') →
    ∃ copies, w_queue w' = (w_queue w ++ (copy_line output_dir <$> copies))%list
              ∧ w_copied w' = (w_copied w ++ (copy_write output_dir <$> copies))%list.

(** Two computations that do the same from every state. *)
#[local] Instance M_equiv {A} : Equiv (M A) := fun m m' => ∀ w, m w = m' w.

(** The outcome of a walk that meets an entry raising [e] after the entries
    [pre]: what [pre] leaves, and [e] unless [pre] raised already. *)
Definition stopped_after (pre : M unit) (e : exn) : M unit :=
  fun w => match pre w with
           | (inl e', w') => (inl e', w')
           | (inr _, w') => (inl e, w')
           end.

(** What [os.path.join(a, b)] puts before a relative [b]. *)
Definition join_prefix (a : string) : string :=
  if negb (PyStr.nonempty a) || PyStr.endswith slash a then a else a ++ "/".

(* ===================================================================== *)
(** ** Facts about the string operations *)
(* ===================================================================== *)

Example rstrip_slashes : PyStr.rstrip slash "osfstorage/dir//" = "osfstorage/dir".
Proof. reflexivity. Qed.

Example split_first_slash : PyStr.split_first slash "abc/files/x/y" = ("abc", "files/x/y").
Proof. reflexivity. Qed.

Example path_join_plain : path_join "out" "osfstorage/a.txt" = "out/osfstorage/a.txt".
Proof. reflexivity. Qed.

Example path_join_trailing_slash : path_join "out/" "a.txt" = "out/a.txt".
Proof. reflexivity. Qed.

Example path_join_absolute : path_join "out" "/etc" = "/etc".
Proof. reflexivity. Qed.

Example parents_of_nested : parents "out/osfstorage/dir" = ["out"; "out/osfstorage"].
Proof. reflexivity. Qed.

Example sample_urlparse_path :
  Sample.urlparse_path "https://test.some.host.nii.ac.jp/abc/files/x" = inr "/abc/files/x".
Proof. reflexivity. Qed.

Example sample_find_by_path_missing :
  TreeClient.find_by_path Sample.osfstorage "missing/segment" = inr None.
Proof. reflexivity. Qed.

Example sample_find_by_path_dir :
  TreeClient.find_by_path Sample.osfstorage "dir" = inr (Some Sample.dir).
Proof. reflexivity. Qed.

(** A directory [d] and a regular file [reg], to try the filesystem calls. *)
Example makedirs_empty_path :
  makedirs (mkFS {[ "d" ]} {[ "reg" := [] ]}) "" = (inl (FileNotFoundError ""), mkFS {[ "d" ]} {[ "reg" := [] ]}).
Proof. vm_compute. reflexivity. Qed.

Example makedirs_under_regular_file :
  fst (makedirs (mkFS {[ "d" ]} {[ "reg" := [] ]}) "reg/x/y") = inl (NotADirectoryError "reg/x/y").
Proof. vm_compute. reflexivity. Qed.

Example makedirs_existing :
  fst (makedirs (mkFS {[ "d" ]} {[ "reg" := [] ]}) "d") = inl (FileExistsError "d")
  ∧ fst (makedirs (mkFS {[ "d" ]} {[ "reg" := [] ]}) "reg/") = inl (FileExistsError "reg/").
Proof. split; vm_compute; reflexivity. Qed.

Example makedirs_nested :
  makedirs (mkFS {[ "d" ]} {[ "reg" := [] ]}) "n/m"
  = (inr tt, mkFS {[ "d"; "n"; "n/m" ]} {[ "reg" := [] ]}).
Proof. vm_compute. reflexivity. Qed.

Example makedirs_dot_dot :
  makedirs (mkFS {[ "d" ]} {[ "reg" := [] ]}) "n/.."
  = (inl (FileExistsError "n/.."), mkFS {[ "d"; "n" ]} {[ "reg" := [] ]}).
Proof. vm_compute. reflexivity. Qed.

Example makedirs_dot :
  fst (makedirs (mkFS {[ "d" ]} {[ "reg" := [] ]}) "n/.") = inr tt
  ∧ fst (makedirs (mkFS {[ "d" ]} {[ "reg" := [] ]}) "d/.") = inl (FileExistsError "d/.").
Proof. split; vm_compute; reflexivity. Qed.

Example open_wb_errors :
  fst (open_wb (mkFS {[ "d" ]} {[ "reg" := [] ]}) "") = inl (FileNotFoundError "")
  ∧ fst (open_wb (mkFS {[ "d" ]} {[ "reg" := [] ]}) "nope/f") = inl (FileNotFoundError "nope/f")
  ∧ fst (open_wb (mkFS {[ "d" ]} {[ "reg" := [] ]}) "reg/f") = inl (NotADirectoryError "reg/f")
  ∧ fst (open_wb (mkFS {[ "d" ]} {[ "reg" := [] ]}) "d/") = inl (IsADirectoryError "d/")
  ∧ fst (open_wb (mkFS {[ "d" ]} {[ "reg" := [] ]}) "nope/") = inl (IsADirectoryError "nope/")
  ∧ fst (open_wb (mkFS {[ "d" ]} {[ "reg" := [] ]}) "d/.") = inl (IsADirectoryError "d/.")
  ∧ fst (open_wb (mkFS {[ "d" ]} {[ "reg" := [] ]}) "d/..") = inl (IsADirectoryError "d/..")
  ∧ fst (open_wb (mkFS {[ "d" ]} {[ "reg" := [] ]}) "nope/.") = inl (FileNotFoundError "nope/.")
  ∧ fst (open_wb (mkFS {[ "d" ]} {[ "reg" := [] ]}) "d") = inl (IsADirectoryError "d").
Proof. repeat split; vm_compute; reflexivity. Qed.

Example open_wb_creates :
  open_wb (mkFS {[ "d" ]} {[ "reg" := [] ]}) "d/f"
  = (inr tt, mkFS {[ "d" ]} {[ "reg" := []; "d/f" := [] ]})
  ∧ fst (open_wb (mkFS {[ "d" ]} {[ "reg" := [] ]}) "reg") = inr tt
  ∧ fst (open_wb (mkFS {[ "d" ]} {[ "reg" := [] ]}) "f") = inr tt.
Proof. repeat split; vm_compute; reflexivity. Qed.

(** With the output directory a regular file, the sample fetch raises as
    soon as it has to make a directory, and copies nothing. *)
Example fetch_under_regular_file :
  fst (Sample.fetch (mkFetchSpec "abc" "" Sample.default_host "v1") "out"
                    (mkFS ∅ {[ "out" := [] ]}))
  = ([fetching_line "" "abc" "https://api.test.some.host.nii.ac.jp/v2"],
     Raised (NotADirectoryError "out/osfstorage")).
Proof. vm_compute. reflexivity. Qed.

Lemma startswith_app p s : PyStr.startswith (p ++ s) p = true.
Proof.
  induction p as [|a p IH]; simpl; [done|].
  by rewrite Ascii.eqb_refl.
Qed.

Lemma contains_app_char c a b : PyStr.contains c (a ++ String c b) = true.
Proof.
  induction a as [|x a IH]; simpl.
  - by rewrite Ascii.eqb_refl.
  - by destruct (Ascii.eqb x c).
Qed.

Lemma split_first_app c a b :
  PyStr.contains c a = false → PyStr.split_first c (a ++ String c b) = (a, b).
Proof.
  induction a as [|x a IH]; simpl; intros H.
  - by rewrite Ascii.eqb_refl.
  - destruct (Ascii.eqb x c); [done|]. by rewrite IH.
Qed.



Lemma string_app_assoc (a b c : string) : (a ++ b) ++ c = a ++ b ++ c.
Proof. induction a as [|x a IH]; simpl; [done|]. by rewrite IH. Qed.

(* ===================================================================== *)
(** ** Construction *)
(* ===================================================================== *)

Section ConstructionFacts.

Variable json_dumps : json -> string.

Lemma check_host_obj_ok items :
  check_host json_dumps (JObj items) = inr tt →
  (∃ names, Py.assoc "hostname" items = Some (JArr names))
  ∧ is_Some (Py.assoc "api" items).
Proof.
  unfold check_host, Py.contains, Py.getitem, rbind.
  destruct (Py.assoc "hostname" items) as [v|] eqn:Hh; cbn [negb]; [|done].
  destruct v; cbn [Py.is_list negb]; try done.
  destruct (Py.assoc "api" items) as [a|] eqn:Ha; cbn [negb]; [eauto|done].
Qed.

Lemma check_host_malformed items :
  malformed_host items → ∃ msg, check_host json_dumps (JObj items) = inl (ValueError msg).
Proof.
  unfold malformed_host, check_host, Py.contains, Py.getitem, rbind.
  destruct (Py.assoc "hostname" items) as [v|] eqn:Hh; cbn [negb]; [|eauto].
  intros [?|[(v' & Hv & Hl)|Ha]]; [done| |].
  - injection Hv as <-. rewrite Hl. cbn [negb]. eauto.
  - destruct (Py.is_list v); cbn [negb]; [|eauto].
    rewrite Ha. cbn [negb]. eauto.
Qed.

Lemma check_hosts_ok l :
  check_hosts json_dumps l = inr tt →
  Forall (fun h => check_host json_dumps h = inr tt) l.
Proof.
  induction l as [|h l IH]; simpl; [constructor|].
  destruct (check_host json_dumps h) as [e|[]] eqn:Hh; simpl; [done|].
  intros H. constructor; auto.
Qed.

Lemma check_hosts_fails l h :
  h ∈ l → (∃ e, check_host json_dumps h = inl e) → ∃ e, check_hosts json_dumps l = inl e.
Proof.
  induction 1 as [h l|h h' l Hin IH]; simpl; intros [e He].
  - rewrite He. simpl. eauto.
  - destruct (check_host json_dumps h') as [e'|[]]; simpl; eauto.
Qed.

(** C7, as the code has it.  When the loaded configuration is a list,
    construction fails as soon as one of its host objects lacks
    ["hostname"], has a ["hostname"] that is not a list, or lacks ["api"];
    an accepted list keeps the loaded value, and each of its host objects
    has a list under ["hostname"] and has an ["api"] key.  Nothing is said
    about the hostnames or the api being non-empty. *)
Theorem init_validates_hosts env l :
  load_hosts env = inr (JArr l) →
  (∀ items, JObj items ∈ l → malformed_host items →
     ∃ e, init json_dumps env = inl e)
  ∧ (∀ self, init json_dumps env = inr self →
       hosts self = JArr l
       ∧ ∀ items, JObj items ∈ l →
           (∃ names, Py.assoc "hostname" items = Some (JArr names))
           ∧ is_Some (Py.assoc "api" items)).
Proof.
  intros Hload. unfold init. rewrite Hload. simpl. split.
  - intros items Hin Hbad.
    destruct (check_hosts_fails l (JObj items) Hin) as [e He].
    + destruct (check_host_malformed items Hbad) as [msg Hm]. eauto.
    + rewrite He. simpl. eauto.
  - intros self.
    destruct (check_hosts json_dumps l) as [e|[]] eqn:Hc; simpl; [done|].
    intros [= <-]. split; [done|].
    intros items Hin. apply check_host_obj_ok.
    apply check_hosts_ok in Hc. rewrite Forall_forall in Hc. by apply Hc.
Qed.

End ConstructionFacts.

Lemma init_validates_hosts_witness :
  (∃ e, init Sample.json_dumps
          (mkEnviron None (Some (inr (JArr [JObj [("hostname", JStr "h"); ("api", JStr "a")]]))))
        = inl e)
  ∧ hosts Sample.self = default_hosts.
Proof.
  pose proof (init_validates_hosts Sample.json_dumps
    (mkEnviron None (Some (inr (JArr [JObj [("hostname", JStr "h"); ("api", JStr "a")]]))))
    [JObj [("hostname", JStr "h"); ("api", JStr "a")]] eq_refl) as [Hbad _].
  split; [|reflexivity].
  apply (Hbad [("hostname", JStr "h"); ("api", JStr "a")]).
  - apply list_elem_of_here.
  - right; left. exists (JStr "h"). split; reflexivity.
Defined.

(** C7, as stated, fails: a configuration whose only host has no hostname
    and an empty api is accepted. *)
Lemma init_accepts_empty_host :
  ¬ (∀ env self l,
       init Sample.json_dumps env = inr self → hosts self = JArr l →
       Forall nonempty_host l).
Proof.
  intros H.
  specialize (H (mkEnviron None (Some (inr (JArr [JObj [("hostname", JArr []); ("api", JStr "")]]))))
                _ _ eq_refl eq_refl).
  apply Forall_inv in H.
  destruct H as (items & n & names & api & Heq & Hh & Ha & Hne).
  injection Heq as <-. simpl in Hh. discriminate.
Qed.

(* ===================================================================== *)
(** ** Locator detection *)
(* ===================================================================== *)

Lemma check_ref_defined_spec ref :
  _check_ref_defined ref = true ↔ ∃ r, ref = Some r ∧ r ≠ "HEAD".
Proof.
  unfold _check_ref_defined. destruct ref as [r|].
  - destruct (String.eqb_spec r "HEAD") as [->|Hne]; split.
    + done.
    + intros (r & [= <-] & Hr). done.
    + eauto.
    + done.
  - split; [done|]. by intros (r & ? & _).
Qed.

Lemma parse_path_no_slash upath :
  let p := if PyStr.startswith upath "/" then PyStr.drop 1 upath else upath in
  PyStr.contains slash p = false → parse_path upath = (p, "").
Proof. intros p Hp. unfold parse_path. fold p. by rewrite Hp. Qed.

Lemma parse_path_slash upath id rest :
  let p := if PyStr.startswith upath "/" then PyStr.drop 1 upath else upath in
  PyStr.contains slash id = false → p = id ++ "/" ++ rest →
  parse_path upath
  = (id, if PyStr.startswith rest "files/"
         then PyStr.drop (String.length "files/") rest else rest).
Proof.
  intros p Hid Hp. unfold parse_path. fold p. rewrite Hp.
  change (id ++ "/" ++ rest) with (id ++ String slash rest).
  rewrite contains_app_char. by rewrite split_first_app.
Qed.

#[local] Instance JStr_inj : Inj (=) (=) JStr.
Proof. by intros ? ? [= ->]. Qed.

Lemma startswith_each_strings source names :
  startswith_each source (JStr <$> names) = inr (PyStr.startswith source <$> names).
Proof.
  induction names as [|n names IH]; [done|].
  cbn [fmap list_fmap startswith_each]. change (list_fmap _ _ JStr names) with (JStr <$> names).
  rewrite IH. done.
Qed.

Lemma existsb_id_fmap {A} (f : A → bool) l : existsb id (f <$> l) = existsb f l.
Proof. induction l as [|x l IH]; [done|]. cbn. by rewrite <- IH. Qed.

Lemma host_matches_well_formed source items names :
  Py.assoc "hostname" items = Some (JArr (JStr <$> names)) →
  host_matches source (JObj items) = inr (existsb (PyStr.startswith source) names).
Proof.
  intros H. unfold host_matches, Py.getitem. rewrite H. cbn [rbind Py.iter].
  rewrite startswith_each_strings. cbn [rbind]. by rewrite existsb_id_fmap.
Qed.

Section DetectionFacts.

Variable urlparse_path : string -> result string.
Variable uuid1 : nat -> string.

Lemma detect_loop_matches self clock source ref hs upath :
  Forall well_formed_host hs →
  Exists (host_has_prefix source) hs →
  urlparse_path source = inr upath →
  ∃ host, host ∈ hs ∧
    detect_loop urlparse_path uuid1 self clock source ref hs
    = inr (Some (mkFetchSpec (parse_path upath).1 (parse_path upath).2 host
                             (session_of uuid1 clock ref).1),
           mkRDM (hosts self) (Some (parse_path upath).1) (Some (parse_path upath).2)
                 (Some (session_of uuid1 clock ref).1),
           (session_of uuid1 clock ref).2).
Proof.
  intros Hwf Hex Hurl. induction hs as [|h hs IH]; [by inversion Hex|].
  apply Forall_cons in Hwf as [(items & names & -> & Hnames) Hwf].
  cbn [detect_loop]. rewrite (host_matches_well_formed _ _ _ Hnames). cbn [rbind].
  destruct (existsb (PyStr.startswith source) names) eqn:Hm.
  - exists (JObj items). split; [apply list_elem_of_here|].
    rewrite Hurl. cbn [rbind]. unfold session_of.
    destruct (parse_path upath) as [pid p].
    destruct ref as [r|]; [destruct (_check_ref_defined (Some r))|]; reflexivity.
  - apply Exists_cons in Hex as [Hhere|Hlater].
    + destruct Hhere as (items' & names' & p & [= <-] & Hn' & Hin & Hp).
      rewrite Hnames in Hn'. injection Hn' as Hn'.
      apply (inj (fmap JStr)) in Hn'. subst names'.
      assert (existsb (PyStr.startswith source) names = true) as Ht.
      { apply existsb_exists. exists p. split; [by apply list_elem_of_In|done]. }
      congruence.
    + destruct (IH Hwf Hlater) as (host & Hin & Heq).
      exists host. split; [by apply list_elem_of_further|done].
Qed.

Lemma detect_loop_inv self clock source ref hs spec self' clock' :
  detect_loop urlparse_path uuid1 self clock source ref hs = inr (Some spec, self', clock') →
  ∃ upath, urlparse_path source = inr upath
    ∧ spec_project_id spec = (parse_path upath).1
    ∧ spec_path spec = (parse_path upath).2
    ∧ spec_uuid spec = (session_of uuid1 clock ref).1
    ∧ clock' = (session_of uuid1 clock ref).2
    ∧ self' = mkRDM (hosts self) (Some (spec_project_id spec)) (Some (spec_path spec))
                    (Some (spec_uuid spec)).
Proof.
  induction hs as [|h hs IH]; cbn [detect_loop]; [done|].
  destruct (host_matches source h) as [e|[]]; cbn [rbind]; [done| |done].
  destruct (urlparse_path source) as [e|upath]; cbn [rbind]; [done|].
  intros H. exists upath. split; [done|]. unfold session_of.
  destruct (parse_path upath) as [pid p].
  destruct ref as [r|]; [destruct (_check_ref_defined (Some r))|];
    injection H as <- <- <-; done.
Qed.

Lemma detect_inv self clock source ref spec self' clock' :
  detect urlparse_path uuid1 self clock source ref = inr (Some spec, self', clock') →
  ∃ upath, urlparse_path source = inr upath
    ∧ spec_project_id spec = (parse_path upath).1
    ∧ spec_path spec = (parse_path upath).2
    ∧ spec_uuid spec = (session_of uuid1 clock ref).1
    ∧ clock' = (session_of uuid1 clock ref).2
    ∧ self' = mkRDM (hosts self) (Some (spec_project_id spec)) (Some (spec_path spec))
                    (Some (spec_uuid spec)).
Proof.
  unfold detect. destruct (Py.iter (hosts self)) as [e|hs]; cbn [rbind]; [done|].
  apply detect_loop_inv.
Qed.

(** C3.  When the hosts are host objects with string hostnames and [source]
    starts with one of them, [detect] returns a spec.  With [p] the URL
    path after its leading slash: if [p] has no ["/"], the project id is
    [p] and the sub-path is empty; if [p] is [id/rest], the project id is
    [id] and the sub-path is [rest] with one leading ["files/"] removed;
    so [id/files/rest] gives the sub-path [rest]. *)
Theorem detect_parses_path self clock source ref hs upath :
  hosts self = JArr hs →
  Forall well_formed_host hs →
  Exists (host_has_prefix source) hs →
  urlparse_path source = inr upath →
  let p := if PyStr.startswith upath "/" then PyStr.drop 1 upath else upath in
  ∃ spec self' clock',
    detect urlparse_path uuid1 self clock source ref = inr (Some spec, self', clock')
    ∧ (PyStr.contains slash p = false →
         spec_project_id spec = p ∧ spec_path spec = "")
    ∧ (∀ id rest, PyStr.contains slash id = false → p = id ++ "/" ++ rest →
         spec_project_id spec = id
         ∧ spec_path spec = if PyStr.startswith rest "files/"
                            then PyStr.drop (String.length "files/") rest else rest)
    ∧ (∀ id rest, PyStr.contains slash id = false → p = id ++ "/files/" ++ rest →
         spec_project_id spec = id ∧ spec_path spec = rest).
Proof.
  intros Hhosts Hwf Hex Hurl p.
  destruct (detect_loop_matches self clock source ref hs upath Hwf Hex Hurl)
    as (host & _ & Heq).
  eexists _, _, _. split.
  { unfold detect. rewrite Hhosts. cbn [Py.iter rbind]. exact Heq. }
  cbn [spec_project_id spec_path]. split; [|split].
  - intros Hp. by rewrite (parse_path_no_slash upath Hp).
  - intros id rest Hid Hp. by rewrite (parse_path_slash upath id rest Hid Hp).
  - intros id rest Hid Hp.
    rewrite (parse_path_slash upath id ("files/" ++ rest) Hid Hp).
    cbn [fst snd]. rewrite startswith_app. done.
Qed.

End DetectionFacts.

Lemma detect_parses_path_witness :
  ∃ spec self' clock',
    detect Sample.urlparse_path Sample.uuid1 Sample.self 0
           "https://test.some.host.nii.ac.jp/abc/files/osfstorage/dir" None
    = inr (Some spec, self', clock')
    ∧ spec_project_id spec = "abc" ∧ spec_path spec = "osfstorage/dir".
Proof.
  destruct (detect_parses_path Sample.urlparse_path Sample.uuid1 Sample.self 0
              "https://test.some.host.nii.ac.jp/abc/files/osfstorage/dir" None
              [Sample.default_host] "/abc/files/osfstorage/dir")
    as (spec & self' & clock' & Hd & _ & _ & H3).
  - reflexivity.
  - constructor; [|constructor].
    exists [("hostname", JArr [JStr "https://test.some.host.nii.ac.jp/"]);
            ("api", JStr "https://api.test.some.host.nii.ac.jp/v2/")],
           ["https://test.some.host.nii.ac.jp/"].
    split; reflexivity.
  - constructor.
    exists [("hostname", JArr [JStr "https://test.some.host.nii.ac.jp/"]);
            ("api", JStr "https://api.test.some.host.nii.ac.jp/v2/")],
           ["https://test.some.host.nii.ac.jp/"], "https://test.some.host.nii.ac.jp/".
    split; [reflexivity|]. split; [reflexivity|]. split; [apply list_elem_of_here|reflexivity].
  - reflexivity.
  - exists spec, self', clock'. split; [exact Hd|].
    apply (H3 "abc" "osfstorage/dir"); reflexivity.
Defined.

Section SessionFacts.

Variable urlparse_path : string -> result string.
Variable uuid1 : nat -> string.

(** Two calls of [uuid.uuid1] never return the same identifier. *)
Hypothesis uuid1_unique : ∀ n m, uuid1 n = uuid1 m → n = m.

Lemma session_of_defined clock r :
  r ≠ "HEAD" → session_of uuid1 clock (Some r) = (r, clock).
Proof.
  intros Hr. unfold session_of, _check_ref_defined.
  by destruct (String.eqb_spec r "HEAD").
Qed.

Lemma session_of_fresh clock ref :
  _check_ref_defined ref = false → session_of uuid1 clock ref = (uuid1 clock, S clock).
Proof. intros Hr. unfold session_of. rewrite Hr. by destruct ref. Qed.

Lemma fresh_sessions_differ clock ref clock2 ref2 :
  _check_ref_defined ref = false → _check_ref_defined ref2 = false →
  ((session_of uuid1 clock ref).2 ≤ clock2)%nat →
  (session_of uuid1 clock ref).1 ≠ (session_of uuid1 clock2 ref2).1.
Proof.
  intros Hr Hr2. rewrite !session_of_fresh by done. cbn [fst snd].
  intros Hle Heq. apply uuid1_unique in Heq. lia.
Qed.

(** C4.  For a matching [detect] call, the session id is the supplied ref
    when the ref is present and is not ["HEAD"], and no identifier is
    generated; when the ref is absent or is ["HEAD"], the session id is
    the next generated identifier.  Of two matching calls without a stable
    ref, the second made after the first, the session ids differ. *)
Theorem detect_session_id self clock source ref spec self' clock'
    self2 clock2 source2 ref2 spec2 self2' clock2' :
  detect urlparse_path uuid1 self clock source ref = inr (Some spec, self', clock') →
  detect urlparse_path uuid1 self2 clock2 source2 ref2
    = inr (Some spec2, self2', clock2') →
  (clock' ≤ clock2)%nat →
  (∀ r, ref = Some r → r ≠ "HEAD" → spec_uuid spec = r ∧ clock' = clock)
  ∧ (ref = None ∨ ref = Some "HEAD" →
       spec_uuid spec = uuid1 clock ∧ clock' = S clock)
  ∧ (_check_ref_defined ref = false → _check_ref_defined ref2 = false →
       spec_uuid spec ≠ spec_uuid spec2).
Proof.
  intros H1 H2 Hle.
  apply detect_inv in H1 as (upath & _ & _ & _ & Hu & Hc & _).
  apply detect_inv in H2 as (upath2 & _ & _ & _ & Hu2 & _ & _).
  split; [|split].
  - intros r -> Hr. rewrite Hu, Hc, session_of_defined by done. done.
  - intros Hr. rewrite Hu, Hc, session_of_fresh; [done|].
    by destruct Hr as [->| ->].
  - intros Hr Hr2. rewrite Hu, Hu2. apply fresh_sessions_differ; [done..|].
    by rewrite <- Hc.
Qed.

(** C8.  After a matching [detect], [content_id] is the project id, a
    dash and the session id; for the project ["abc"] and the explicit ref
    ["v1"] it is ["abc-v1"]; and of two matching calls without a stable
    ref for the same project, the second made after the first, the
    content ids differ. *)
Theorem content_id_of_detect self clock source ref spec self' clock'
    self2 clock2 source2 ref2 spec2 self2' clock2' :
  detect urlparse_path uuid1 self clock source ref = inr (Some spec, self', clock') →
  detect urlparse_path uuid1 self2 clock2 source2 ref2
    = inr (Some spec2, self2', clock2') →
  (clock' ≤ clock2)%nat →
  content_id self' = inr (spec_project_id spec ++ "-" ++ spec_uuid spec)
  ∧ (spec_project_id spec = "abc" → ref = Some "v1" → content_id self' = inr "abc-v1")
  ∧ (spec_project_id spec = spec_project_id spec2 →
     _check_ref_defined ref = false → _check_ref_defined ref2 = false →
     content_id self' ≠ content_id self2').
Proof.
  intros H1 H2 Hle.
  apply detect_inv in H1 as (upath & _ & _ & _ & Hu & Hc & ->).
  apply detect_inv in H2 as (upath2 & _ & _ & _ & Hu2 & _ & ->).
  unfold content_id. cbn [project_id uuid]. split; [done|split].
  - intros Hp ->. rewrite Hu, Hp, session_of_defined by done. done.
  - intros Hp Hr Hr2 [= Heq]. rewrite Hp in Heq.
    apply (inj (String.app _)) in Heq. injection Heq as Heq.
    revert Heq. rewrite Hu, Hu2. apply fresh_sessions_differ; [done..|].
    by rewrite <- Hc.
Qed.

End SessionFacts.

Lemma sample_uuid1_unique n m : Sample.uuid1 n = Sample.uuid1 m → n = m.
Proof.
  unfold Sample.uuid1. intros H. apply (inj (String.app _)) in H.
  by apply (inj pretty) in H.
Qed.

Lemma detect_session_id_witness :
  spec_uuid (mkFetchSpec "abc" "" Sample.default_host (Sample.uuid1 0))
  ≠ spec_uuid (mkFetchSpec "abc" "" Sample.default_host (Sample.uuid1 1)).
Proof.
  eapply (detect_session_id Sample.urlparse_path Sample.uuid1 sample_uuid1_unique
            Sample.self 0 "https://test.some.host.nii.ac.jp/abc" None
            (mkFetchSpec "abc" "" Sample.default_host (Sample.uuid1 0))
            (mkRDM default_hosts (Some "abc") (Some "") (Some (Sample.uuid1 0))) 1
            Sample.self 1 "https://test.some.host.nii.ac.jp/abc" (Some "HEAD")
            (mkFetchSpec "abc" "" Sample.default_host (Sample.uuid1 1))
            (mkRDM default_hosts (Some "abc") (Some "") (Some (Sample.uuid1 1))) 2).
  - reflexivity.
  - reflexivity.
  - apply le_n.
  - reflexivity.
  - reflexivity.
Defined.

Lemma content_id_of_detect_witness :
  content_id (mkRDM default_hosts (Some "abc") (Some "") (Some "v1")) = inr "abc-v1".
Proof.
  eapply (content_id_of_detect Sample.urlparse_path Sample.uuid1 sample_uuid1_unique
            Sample.self 0 "https://test.some.host.nii.ac.jp/abc" (Some "v1")
            (mkFetchSpec "abc" "" Sample.default_host "v1")
            (mkRDM default_hosts (Some "abc") (Some "") (Some "v1")) 0
            Sample.self 0 "https://test.some.host.nii.ac.jp/abc" (Some "v1")
            (mkFetchSpec "abc" "" Sample.default_host "v1")
            (mkRDM default_hosts (Some "abc") (Some "") (Some "v1")) 0).
  - reflexivity.
  - reflexivity.
  - apply le_n.
  - reflexivity.
  - reflexivity.
Defined.

(* ===================================================================== *)
(** ** The walk, entry by entry *)
(* ===================================================================== *)

#[local] Instance M_equivalence {A} : Equivalence (≡@{M A}).
Proof.
  split.
  - by intros m w.
  - by intros m m' H w.
  - intros m1 m2 m3 H12 H23 w. by rewrite H12.
Qed.

#[local] Instance bind_proper {A B} :
  Proper ((≡) ==> pointwise_relation A (≡) ==> (≡)) (@bind A B).
Proof.
  intros m m' Hm k k' Hk w. unfold bind. rewrite Hm.
  destruct (m' w) as [[e|a] w']; [done|]. apply Hk.
Qed.

Lemma bind_assoc {A B C} (m : M A) (k : A → M B) (k' : B → M C) :
  bind (bind m k) k' ≡ bind m (fun a => bind (k a) k').
Proof. intros w. unfold bind. by destruct (m w) as [[e|a] w']. Qed.

Lemma ret_bind {A B} (a : A) (k : A → M B) : bind (ret a) k ≡ k a.
Proof. by intros w. Qed.

Lemma bind_ret (m : M unit) : (m ;; ret tt) ≡ m.
Proof. intros w. unfold bind, ret. by destruct (m w) as [[e|[]] w']. Qed.

Lemma for_each_app {A} (body : A → M unit) l1 l2 :
  for_each body (l1 ++ l2) ≡ (for_each body l1 ;; for_each body l2).
Proof.
  induction l1 as [|x l1 IH]; cbn [for_each app].
  - by rewrite ret_bind.
  - rewrite bind_assoc. by setoid_rewrite IH.
Qed.

Lemma for_each_ext {A} (body body' : A → M unit) l :
  Forall (fun x => body x ≡ body' x) l → for_each body l ≡ for_each body' l.
Proof.
  induction 1 as [|x l Hx _ IH]; cbn [for_each]; [done|].
  apply bind_proper; [done|]. by intros _.
Qed.

Lemma for_each_fmap {A B} (f : A → B) (body : B → M unit) l :
  for_each body (f <$> l) ≡ for_each (fun x => body (f x)) l.
Proof.
  induction l as [|x l IH]; cbn [for_each fmap list_fmap]; [done|].
  apply bind_proper; [done|]. by intros _.
Qed.

Lemma for_each_bind {A B} (f : A → list B) (body : B → M unit) l :
  for_each body (x ← l; f x) ≡ for_each (fun x => for_each body (f x)) l.
Proof.
  induction l as [|x l IH]; cbn [for_each mbind list_bind]; [done|].
  rewrite for_each_app. apply bind_proper; [done|]. by intros _.
Qed.

Lemma run_steps_listing_end output_dir e :
  run_steps output_dir (listing_end e) ≡ raise_opt e.
Proof.
  destruct e as [e|]; cbn; [|done]. apply bind_ret.
Qed.

(** Induction on a folder with the property in hand for its sub-folders. *)
Lemma Folder_nested_ind (P : Folder → Prop) :
  (∀ name fs fe ds de, Forall P ds → P (mkFolder name fs fe ds de)) →
  ∀ storage, P storage.
Proof.
  intros H. fix IH 1. intros [name fs fe ds de]. apply H.
  induction ds as [|d ds IHds]; constructor; [apply IH|exact IHds].
Qed.

(** [_fetch_storage] runs the entries of [walk_order] one after the other. *)
Lemma fetch_storage_linear storage :
  ∀ output_dir local_dir,
    _fetch_storage storage output_dir local_dir
    ≡ run_steps output_dir (walk_order storage local_dir).
Proof.
  induction storage as [name fs fe ds de IH] using Folder_nested_ind.
  intros output_dir local_dir. cbn [_fetch_storage walk_order files files_error folders
    folders_error]. unfold run_steps.
  rewrite for_each_app.
  apply bind_proper; [by rewrite for_each_fmap|]. intros _.
  rewrite for_each_app.
  apply bind_proper; [symmetry; apply run_steps_listing_end|]. intros _.
  rewrite for_each_app.
  apply bind_proper; [|intros _; symmetry; apply run_steps_listing_end].
  rewrite for_each_bind. apply for_each_ext.
  eapply Forall_impl; [exact IH|]. intros d Hd. cbn [for_each exec_step].
  apply bind_proper; [done|]. intros _. apply Hd.
Qed.

Lemma offending_raises output_dir s e :
  offending s = Some e → exec_step output_dir s ≡ raise e.
Proof.
  destruct s as [ld f|name|e']; cbn [offending exec_step]; [| |done].
  - unfold fetch_file. destruct (has_separator (file_name f)); [|done]. by intros [= <-].
  - unfold check_folder_name. destruct (has_separator name); [|done]. by intros [= <-].
Qed.

Lemma run_steps_stops output_dir pre s post e :
  offending s = Some e →
  run_steps output_dir (pre ++ s :: post) ≡ stopped_after (run_steps output_dir pre) e.
Proof.
  intros Hs. unfold run_steps. rewrite for_each_app. cbn [for_each].
  intros w. unfold bind, stopped_after.
  destruct (for_each (exec_step output_dir) pre w) as [[e'|[]] w']; [done|].
  by rewrite (offending_raises output_dir s e Hs w').
Qed.

(** A walk that meets an entry with a separator in its name does what the
    entries before it do, and raises. *)
Lemma fetch_storage_stops storage output_dir local_dir pre s post e w :
  walk_order storage local_dir = (pre ++ s :: post)%list →
  offending s = Some e →
  _fetch_storage storage output_dir local_dir w
  = stopped_after (run_steps output_dir pre) e w.
Proof.
  intros Horder Hs. rewrite (fetch_storage_linear storage output_dir local_dir w).
  rewrite Horder. by apply run_steps_stops.
Qed.

(* ===================================================================== *)
(** ** The producer and the consumer *)
(* ===================================================================== *)

Lemma drain_lines_then_exc ls e rest :
  drain ((QLine <$> ls) ++ QExc e :: rest) = (ls, Raised e).
Proof. induction ls as [|l ls IH]; cbn; [done|]. by rewrite IH. Qed.

Lemma drain_lines_then_end ls rest :
  drain ((QLine <$> ls) ++ QEnd :: rest) = (ls, Finished).
Proof. induction ls as [|l ls IH]; cbn; [done|]. by rewrite IH. Qed.

Lemma lift_bind {A B} (a : A) (k : A → M B) : bind (lift (inr a)) k ≡ k a.
Proof. by intros w. Qed.

Lemma lift_raise_bind {A B} (e : exn) (k : A → M B) : bind (lift (inl e)) k ≡ raise e.
Proof. by intros w. Qed.

Section FetchFacts.

Variable Project : Type.
Variable osf_project : option json -> string -> string -> result Project.
Variable project_storage : Project -> string -> result Folder.
Variable project_storages : Project -> list Folder * option exn.
Variable find_by_path : Folder -> string -> result (option Folder).
Variable OSF_TOKEN : option string.

Local Abbreviation fetch_producer :=
  (_fetch Project osf_project project_storage project_storages find_by_path OSF_TOKEN).
Local Abbreviation fetch_consumer :=
  (fetch Project osf_project project_storage project_storages find_by_path OSF_TOKEN).
Local Abbreviation resolve_path := (resolve Project project_storage find_by_path).
Local Abbreviation roots :=
  (roots_order Project project_storage project_storages find_by_path).

Lemma fetch_of_producer spec output_dir fs r w :
  fetch_producer spec output_dir (mkWorld fs [] []) = (r, w) →
  fetch_consumer spec output_dir fs
  = (w_queue w, match r with inl e => Raised e | inr _ => Finished end, w).
Proof.
  intros H. unfold fetch, _fetch_with_error. rewrite H.
  destruct r as [e|[]]; cbn [app].
  - by rewrite drain_lines_then_exc.
  - by rewrite drain_lines_then_end.
Qed.

(** C2.  When the producer raises [e], it leaves on the queue the lines it
    queued up to then, the exception after them and the end marker last;
    the consumer yields exactly those lines and then raises [e] as the end
    of the sequence. *)
Theorem fetch_propagates_error spec output_dir fs e w :
  fetch_producer spec output_dir (mkWorld fs [] []) = (inl e, w) →
  _fetch_with_error Project osf_project project_storage project_storages find_by_path
                    OSF_TOKEN spec output_dir fs
  = (((QLine <$> w_queue w) ++ [QExc e; QEnd])%list, w)
  ∧ fetch_consumer spec output_dir fs = (w_queue w, Raised e, w).
Proof.
  intros H. split.
  - unfold _fetch_with_error. by rewrite H.
  - by rewrite (fetch_of_producer _ _ _ _ _ H).
Qed.

(** Up to the walk, [_fetch] queues its first line and finds the project. *)
Lemma fetch_prologue spec output_dir url tok project :
  api_url_of (spec_host spec) = inr url →
  token_of OSF_TOKEN (spec_host spec) = inr tok →
  osf_project tok url (spec_project_id spec) = inr project →
  fetch_producer spec output_dir
  ≡ (put (fetching_line (spec_path spec) (spec_project_id spec) url) ;;
     if PyStr.nonempty (spec_path spec) then
       let* storage := lift (resolve_path project (spec_path spec)) in
       _fetch_storage storage output_dir None
     else
       for_each (fun storage => _fetch_storage storage output_dir
                                  (Some (folder_name storage)))
                (fst (project_storages project)) ;;
       raise_opt (snd (project_storages project))).
Proof.
  intros Hurl Htok Hproj. unfold _fetch.
  rewrite Hurl, lift_bind. apply bind_proper; [done|]. intros _.
  rewrite Htok, lift_bind, Hproj, lift_bind. done.
Qed.

(** A fetch whose roots are found runs their entries in walk order. *)
Lemma fetch_linear spec output_dir url tok project steps :
  api_url_of (spec_host spec) = inr url →
  token_of OSF_TOKEN (spec_host spec) = inr tok →
  osf_project tok url (spec_project_id spec) = inr project →
  roots project (spec_path spec) = inr steps →
  fetch_producer spec output_dir
  ≡ (put (fetching_line (spec_path spec) (spec_project_id spec) url) ;;
     run_steps output_dir steps).
Proof.
  intros Hurl Htok Hproj Hroots.
  rewrite (fetch_prologue spec output_dir url tok project Hurl Htok Hproj).
  apply bind_proper; [done|]. intros _.
  unfold roots_order in Hroots.
  destruct (PyStr.nonempty (spec_path spec)).
  - destruct (resolve_path project (spec_path spec)) as [e|node]; [done|].
    cbn [rbind] in Hroots. injection Hroots as <-.
    rewrite lift_bind. apply fetch_storage_linear.
  - injection Hroots as <-. unfold run_steps. rewrite for_each_app.
    apply bind_proper; [|intros _; symmetry; apply run_steps_listing_end].
    rewrite for_each_bind. apply for_each_ext, Forall_forall.
    intros storage _. apply fetch_storage_linear.
Qed.

(** A fetch whose sub-path does not resolve stops after its first line. *)
Lemma fetch_unresolved spec output_dir url tok project e :
  api_url_of (spec_host spec) = inr url →
  token_of OSF_TOKEN (spec_host spec) = inr tok →
  osf_project tok url (spec_project_id spec) = inr project →
  PyStr.nonempty (spec_path spec) = true →
  resolve_path project (spec_path spec) = inl e →
  fetch_producer spec output_dir
  ≡ (put (fetching_line (spec_path spec) (spec_project_id spec) url) ;; raise e).
Proof.
  intros Hurl Htok Hproj Hne Hres.
  rewrite (fetch_prologue spec output_dir url tok project Hurl Htok Hproj).
  apply bind_proper; [done|]. intros _.
  rewrite Hne, Hres. apply lift_raise_bind.
Qed.


(* --------------------------------------------------------------------- *)
(** *** A name with a path separator *)

(** C6.  When an entry of the walk of a fetch has a name with a path
    separator, the fetch does what the entries before it in walk order do
    and then ends by raising the [ValueError] of that entry, unless an
    earlier entry raised: the lines it yields and the state it leaves,
    filesystem and copies, are those of the preceding entries. *)
Theorem separator_aborts_fetch spec output_dir fs url tok project pre s post e :
  api_url_of (spec_host spec) = inr url →
  token_of OSF_TOKEN (spec_host spec) = inr tok →
  osf_project tok url (spec_project_id spec) = inr project →
  roots project (spec_path spec) = inr (pre ++ s :: post)%list →
  offending s = Some e →
  fetch_consumer spec output_dir fs
  = match run_steps output_dir pre
            (mkWorld fs [] [fetching_line (spec_path spec) (spec_project_id spec) url]) with
    | (inl e', w) => (w_queue w, Raised e', w)
    | (inr _, w) => (w_queue w, Raised e, w)
    end.
Proof.
  intros Hurl Htok Hproj Hroots Hs.
  pose proof (fetch_linear spec output_dir url tok project _ Hurl Htok Hproj Hroots
                (mkWorld fs [] [])) as Hrun.
  unfold bind at 1 in Hrun. cbn [put w_fs w_copied w_queue app] in Hrun.
  rewrite (run_steps_stops output_dir pre s post e Hs) in Hrun.
  unfold stopped_after in Hrun.
  destruct (run_steps output_dir pre _) as [[e'|[]] w];
    by rewrite (fetch_of_producer _ _ _ _ _ Hrun).
Qed.

(* --------------------------------------------------------------------- *)
(** *** A sub-path with a missing segment *)

Lemma index_app_char c a b :
  PyStr.contains c a = false → PyStr.index c (a ++ String c b) = Some (String.length a).
Proof.
  induction a as [|x a IH]; cbn; intros H.
  - by rewrite Ascii.eqb_refl.
  - destruct (Ascii.eqb x c); [done|]. by rewrite IH.
Qed.

Lemma take_app_length a b : PyStr.take (String.length a) (a ++ b) = a.
Proof. induction a as [|x a IH]; cbn; [by destruct b|]. by rewrite IH. Qed.

Lemma drop_app_length a c b :
  PyStr.drop (String.length a + 1) (a ++ String c b) = b.
Proof. induction a as [|x a IH]; cbn; [done|]. exact IH. Qed.

Lemma resolve_missing project path name rest storage :
  PyStr.rstrip slash path = name ++ "/" ++ rest →
  PyStr.contains slash name = false →
  project_storage project name = inr storage →
  find_by_path storage rest = inr None →
  resolve_path project path = inl (RuntimeError ("Could not find path " ++ name ++ "/" ++ rest)).
Proof.
  intros Hp Hname Hst Hfind. unfold resolve. rewrite Hp.
  change (name ++ "/" ++ rest) with (name ++ String slash rest).
  rewrite contains_app_char, (index_app_char _ _ _ Hname), take_app_length.
  cbn [rbind]. rewrite Hst. cbn [rbind].
  rewrite drop_app_length, Hfind. done.
Qed.

(** C5.  When the sub-path, without its trailing slashes, is
    [name/rest], the storage [name] exists and the client finds no node at
    [rest], the fetch yields its first line and no ["Fetch:"] line, and ends
    by raising the lookup error; the filesystem is the one it started from
    and nothing was copied. *)
Theorem missing_segment_fails spec output_dir fs url tok project name rest storage :
  api_url_of (spec_host spec) = inr url →
  token_of OSF_TOKEN (spec_host spec) = inr tok →
  osf_project tok url (spec_project_id spec) = inr project →
  PyStr.rstrip slash (spec_path spec) = name ++ "/" ++ rest →
  PyStr.contains slash name = false →
  project_storage project name = inr storage →
  find_by_path storage rest = inr None →
  fetch_consumer spec output_dir fs
  = ([fetching_line (spec_path spec) (spec_project_id spec) url],
     Raised (RuntimeError ("Could not find path " ++ name ++ "/" ++ rest)),
     mkWorld fs [] [fetching_line (spec_path spec) (spec_project_id spec) url]).
Proof.
  intros Hurl Htok Hproj Hp Hname Hst Hfind.
  assert (PyStr.nonempty (spec_path spec) = true) as Hne.
  { destruct (spec_path spec); [|done]. by destruct name. }
  pose proof (resolve_missing project _ name rest storage Hp Hname Hst Hfind) as Hres.
  pose proof (fetch_unresolved spec output_dir url tok project _ Hurl Htok Hproj Hne Hres
                (mkWorld fs [] [])) as Hrun.
  by rewrite (fetch_of_producer _ _ _ _ _ Hrun).
Qed.

(* --------------------------------------------------------------------- *)
(** *** One progress line per copy *)

(* --------------------------------------------------------------------- *)
(** *** The filesystem calls *)

Lemma fs_call_inv f w r w' :
  fs_call f w = (r, w') →
  f (w_fs w) = (r, w_fs w') ∧ w_copied w' = w_copied w ∧ w_queue w' = w_queue w.
Proof.
  unfold fs_call. destruct (f (w_fs w)) as [r' fs']. by intros [= <- <-].
Qed.

Lemma isdir_elem fs p : isdir fs p = true → p ∈ fs_dirs fs.
Proof.
  unfold isdir. intros [_ H]%andb_true_iff. by apply bool_decide_eq_true in H.
Qed.

Lemma makedirs_keeps fs p r fs' :
  makedirs fs p = (r, fs') →
  fs_dirs fs ⊆ fs_dirs fs' ∧ fs_files fs' = fs_files fs.
Proof.
  unfold makedirs.
  repeat match goal with
         | |- context [if ?b then _ else _] => destruct b
         | |- context [match ?o with Some _ => _ | None => _ end] => destruct o
         end;
    intros [= <- <-]; cbn [fs_dirs fs_files]; (split; [set_solver|done]).
Qed.

Lemma makedirs_done fs p fs' : makedirs fs p = (inr tt, fs') → p ∈ fs_dirs fs'.
Proof.
  unfold makedirs.
  repeat match goal with
         | |- context [if ?b then _ else _] => destruct b
         | |- context [match ?o with Some _ => _ | None => _ end] => destruct o
         end;
    intros [= <-]; cbn [fs_dirs]; set_solver.
Qed.

Lemma open_wb_keeps fs p r fs' :
  open_wb fs p = (r, fs') →
  fs_dirs fs' = fs_dirs fs
  ∧ (fs_files fs' = fs_files fs ∨ fs_files fs' = <[ p := [] ]> (fs_files fs)).
Proof.
  unfold open_wb.
  repeat match goal with
         | |- context [if ?b then _ else _] => destruct b
         end;
    intros [= <- <-]; cbn [fs_dirs fs_files]; auto.
Qed.

(** The step of [fetch_file] that makes the local directory. *)
Lemma dir_step_inv p w r w1 :
  (if isdir (w_fs w) p then ret tt w else fs_call (fun fs => makedirs fs p) w) = (r, w1) →
  w_copied w1 = w_copied w ∧ w_queue w1 = w_queue w
  ∧ fs_dirs (w_fs w) ⊆ fs_dirs (w_fs w1)
  ∧ fs_files (w_fs w1) = fs_files (w_fs w)
  ∧ (r = inr tt → p ∈ fs_dirs (w_fs w1)).
Proof.
  destruct (isdir (w_fs w) p) eqn:Hd.
  - intros [= <- <-]. repeat split; try done. intros _. by apply isdir_elem.
  - intros (Hmk & Hc & Hq)%fs_call_inv.
    destruct (makedirs_keeps _ _ _ _ Hmk) as [Hdirs Hfiles].
    repeat split; try done. intros ->. by apply makedirs_done in Hmk.
Qed.

Lemma tracks_ret output_dir {A} (a : A) : tracks output_dir (ret a).
Proof. intros w r w' [= <- <-]. exists []. by rewrite !app_nil_r. Qed.

Lemma tracks_raise output_dir {A} (e : exn) : tracks output_dir (@raise A e).
Proof. intros w r w' [= <- <-]. exists []. by rewrite !app_nil_r. Qed.

Lemma tracks_lift output_dir {A} (x : result A) : tracks output_dir (lift x).
Proof. intros w r w' [= <- <-]. exists []. by rewrite !app_nil_r. Qed.

Lemma tracks_raise_opt output_dir e : tracks output_dir (raise_opt e).
Proof. destruct e; [apply tracks_raise|apply tracks_ret]. Qed.

Lemma tracks_fs_call output_dir f : tracks output_dir (fs_call f).
Proof.
  intros w r w' (_ & Hc & Hq)%fs_call_inv. exists []. by rewrite !app_nil_r.
Qed.

Lemma tracks_bind output_dir {A B} (m : M A) (k : A → M B) :
  tracks output_dir m → (∀ a, tracks output_dir (k a)) → tracks output_dir (bind m k).
Proof.
  intros Hm Hk w r w'. unfold bind.
  destruct (m w) as [[e|a] w1] eqn:H1.
  - intros [= <- <-]. by apply (Hm _ _ _ H1).
  - intros H2. destruct (Hm _ _ _ H1) as (c1 & Hq1 & Hc1).
    destruct (Hk a _ _ _ H2) as (c2 & Hq2 & Hc2).
    exists (c1 ++ c2)%list. rewrite Hq2, Hc2, Hq1, Hc1, !fmap_app, !app_assoc. done.
Qed.

Lemma tracks_for_each output_dir {A} (body : A → M unit) l :
  Forall (fun x => tracks output_dir (body x)) l → tracks output_dir (for_each body l).
Proof.
  induction 1 as [|x l Hx _ IH]; cbn [for_each]; [apply tracks_ret|].
  apply tracks_bind; [done|]. by intros _.
Qed.

Lemma tracks_write_then_put output_dir file_ local_path :
  tracks output_dir (write_to file_ (path_join output_dir local_path) ;;
                     put (fetch_line file_ local_path output_dir)).
Proof.
  intros w r w'. unfold bind, write_to, put.
  destruct (file_error file_) as [e|].
  - intros [= <- <-]. exists []. by rewrite !app_nil_r.
  - intros [= <- <-]. by exists [(file_, local_path)].
Qed.

Lemma tracks_fetch_file output_dir local_dir file_ :
  tracks output_dir (fetch_file output_dir local_dir file_).
Proof.
  unfold fetch_file. destruct (has_separator (file_name file_)); [apply tracks_raise|].
  apply tracks_bind.
  { intros w r w'. destruct (isdir (w_fs w) _); [apply tracks_ret|apply tracks_fs_call]. }
  intros _. apply tracks_bind; [apply tracks_fs_call|]. intros _.
  apply tracks_write_then_put.
Qed.

Lemma tracks_check_folder_name output_dir name :
  tracks output_dir (check_folder_name name).
Proof.
  unfold check_folder_name. destruct (has_separator name);
    [apply tracks_raise|apply tracks_ret].
Qed.

Lemma tracks_fetch_storage output_dir storage :
  ∀ local_dir, tracks output_dir (_fetch_storage storage output_dir local_dir).
Proof.
  induction storage as [name fs fe ds de IH] using Folder_nested_ind.
  intros local_dir. cbn [_fetch_storage files files_error folders folders_error].
  apply tracks_bind.
  { apply tracks_for_each, Forall_forall. intros f _. apply tracks_fetch_file. }
  intros _. apply tracks_bind; [apply tracks_raise_opt|]. intros _.
  apply tracks_bind; [|intros _; apply tracks_raise_opt].
  apply tracks_for_each. eapply Forall_impl; [exact IH|]. intros d Hd.
  apply tracks_bind; [apply tracks_check_folder_name|]. intros _. apply Hd.
Qed.

Lemma tracks_walk output_dir tok url spec :
  tracks output_dir
    (let* project := lift (osf_project tok url (spec_project_id spec)) in
     if PyStr.nonempty (spec_path spec) then
       let* storage := lift (resolve_path project (spec_path spec)) in
       _fetch_storage storage output_dir None
     else
       for_each (fun storage => _fetch_storage storage output_dir
                                  (Some (folder_name storage)))
                (fst (project_storages project)) ;;
       raise_opt (snd (project_storages project))).
Proof.
  apply tracks_bind; [apply tracks_lift|]. intros project.
  destruct (PyStr.nonempty (spec_path spec)).
  - apply tracks_bind; [apply tracks_lift|]. intros storage.
    apply tracks_fetch_storage.
  - apply tracks_bind; [|intros _; apply tracks_raise_opt].
    apply tracks_for_each, Forall_forall. intros storage _.
    apply tracks_fetch_storage.
Qed.

(** C9, as the code has it.  For a host whose ["api"] is a string, the
    progress stream of a fetch is one first line
    ["Fetching RDM directory {subPath} on {projectId} at {url}."], where
    [url] is the api value without its final slash if it has one, followed
    by ["Fetch:"] lines, one for each completed copy and in the order of
    the copies. *)
Theorem progress_stream spec output_dir fs api :
  Py.getitem (spec_host spec) "api" = inr (JStr api) →
  ∃ copies ending w,
    fetch_consumer spec output_dir fs
    = (fetching_line (spec_path spec) (spec_project_id spec)
         (if PyStr.endswith slash api then PyStr.drop_last api else api)
         :: (copy_line output_dir <$> copies),
       ending, w)
    ∧ w_copied w = copy_write output_dir <$> copies.
Proof.
  intros Hapi.
  destruct (fetch_producer spec output_dir (mkWorld fs [] [])) as [r w] eqn:Hrun.
  rewrite (fetch_of_producer _ _ _ _ _ Hrun).
  revert Hrun. unfold _fetch, api_url_of. rewrite Hapi. cbn [rbind].
  unfold bind at 1. cbn [lift]. unfold bind at 1. cbn [put w_fs w_copied w_queue app].
  unfold bind at 1.
  destruct (lift (token_of OSF_TOKEN (spec_host spec)) _) as [[e|tok] w1] eqn:Htok.
  - injection Htok as _ <-. intros [= <- <-]. eexists [], _, _. split; reflexivity.
  - injection Htok as _ <-. intros Hrest.
    destruct (tracks_walk output_dir tok _ spec _ _ _ Hrest) as (copies & Hq & Hc).
    cbn [w_queue w_copied app] in Hq, Hc.
    exists copies, (match r with inl e => Raised e | inr _ => Finished end), w.
    by rewrite Hq, Hc.
Qed.

(* --------------------------------------------------------------------- *)
(** *** Where a file is copied to *)

Lemma fetch_file_done output_dir local_dir file_ w w' :
  fetch_file output_dir local_dir file_ w = (inr tt, w') →
  let local_path := local_path_of local_dir (file_name file_) in
  w_queue w' = (w_queue w ++ [fetch_line file_ local_path output_dir])%list
  ∧ w_copied w' = (w_copied w ++ [(path_join output_dir local_path, file_data file_)])%list
  ∧ fs_files (w_fs w') !! path_join output_dir local_path = Some (file_data file_).
Proof.
  unfold fetch_file. destruct (has_separator (file_name file_)); [done|].
  unfold bind at 1.
  destruct (if isdir (w_fs w) _ then _ else _) as [[e|[]] w1] eqn:Hmk; [done|].
  apply dir_step_inv in Hmk as (Hc1 & Hq1 & _).
  unfold bind at 1.
  destruct (fs_call _ w1) as [[e|[]] w2] eqn:Hop; [done|].
  apply fs_call_inv in Hop as (_ & Hc2 & Hq2).
  unfold bind, write_to, put. cbn [w_fs w_copied w_queue fs_files fs_dirs].
  destruct (file_error file_); [done|]. intros [= <-].
  cbn [w_fs w_copied w_queue fs_files]. rewrite Hc2, Hq2, Hc1, Hq1.
  split; [done|]. split; [done|]. apply lookup_insert_eq.
Qed.

Lemma elem_of_walk_order_file storage local_dir file_ :
  file_ ∈ files storage → SFile local_dir file_ ∈ walk_order storage local_dir.
Proof.
  intros Hin. destruct storage as [name fs fe ds de]. cbn [walk_order files].
  apply elem_of_app. left. by apply list_elem_of_fmap_2.
Qed.

Lemma elem_of_walk_order_nested storage local_dir folder file_ :
  folder ∈ folders storage → file_ ∈ files folder →
  SFile (Some (local_path_of local_dir (folder_name folder))) file_
  ∈ walk_order storage local_dir.
Proof.
  intros Hd Hf. destruct storage as [name fs fe ds de].
  cbn [walk_order folders] in *.
  apply elem_of_app. right. apply elem_of_app. right. apply elem_of_app. left.
  apply list_elem_of_bind. exists folder. split; [|done].
  apply list_elem_of_further. by apply elem_of_walk_order_file.
Qed.

(** C10.  A fetch whose roots are found queues its first line and runs the
    entries of its roots.  For a non-empty sub-path the roots are the
    entries of the resolved node walked without a local directory: a file
    of the node is walked with no local directory and a file of one of its
    folders under that folder's name alone.  For an empty sub-path a file
    of a storage is walked under the storage's name.  A file walked with no
    local directory is reported under its own name and copied to
    [output_dir/name]; a file walked under [d] is reported as [d/name] and
    copied to [output_dir/d/name]. *)
Theorem subpath_walk_has_no_prefix spec output_dir url tok project steps :
  api_url_of (spec_host spec) = inr url →
  token_of OSF_TOKEN (spec_host spec) = inr tok →
  osf_project tok url (spec_project_id spec) = inr project →
  roots project (spec_path spec) = inr steps →
  (∀ w, fetch_producer spec output_dir w
        = (put (fetching_line (spec_path spec) (spec_project_id spec) url) ;;
           run_steps output_dir steps) w)
  ∧ (PyStr.nonempty (spec_path spec) = true →
       ∃ node, resolve_path project (spec_path spec) = inr node
         ∧ steps = walk_order node None
         ∧ (∀ f, f ∈ files node → SFile None f ∈ steps)
         ∧ (∀ d f, d ∈ folders node → f ∈ files d →
              SFile (Some (folder_name d)) f ∈ steps))
  ∧ (PyStr.nonempty (spec_path spec) = false →
       ∀ storage f, storage ∈ fst (project_storages project) → f ∈ files storage →
         SFile (Some (folder_name storage)) f ∈ steps)
  ∧ (∀ f w w', exec_step output_dir (SFile None f) w = (inr tt, w') →
       w_queue w' = (w_queue w ++ [fetch_line f (file_name f) output_dir])%list
       ∧ w_copied w'
         = (w_copied w ++ [(path_join output_dir (file_name f), file_data f)])%list
       ∧ fs_files (w_fs w') !! path_join output_dir (file_name f) = Some (file_data f))
  ∧ (∀ d f w w', exec_step output_dir (SFile (Some d) f) w = (inr tt, w') →
       w_queue w'
       = (w_queue w ++ [fetch_line f (path_join d (file_name f)) output_dir])%list
       ∧ w_copied w'
         = (w_copied w
              ++ [(path_join output_dir (path_join d (file_name f)), file_data f)])%list
       ∧ fs_files (w_fs w') !! path_join output_dir (path_join d (file_name f))
         = Some (file_data f)).
Proof.
  intros Hurl Htok Hproj Hroots.
  split; [exact (fetch_linear spec output_dir url tok project steps Hurl Htok Hproj Hroots)|].
  unfold roots_order in Hroots.
  split; [|split; [|split]].
  - intros Hne. rewrite Hne in Hroots.
    destruct (resolve_path project (spec_path spec)) as [e|node]; [done|].
    cbn [rbind] in Hroots. injection Hroots as <-.
    exists node. split; [done|]. split; [done|]. split.
    + intros f Hf. by apply elem_of_walk_order_file.
    + intros d f Hd Hf. by apply (elem_of_walk_order_nested node None d f).
  - intros Hne. rewrite Hne in Hroots. injection Hroots as <-.
    intros storage f Hs Hf. apply elem_of_app. left.
    apply list_elem_of_bind. exists storage. split; [|done].
    by apply elem_of_walk_order_file.
  - intros f w w' H. exact (fetch_file_done output_dir None f w w' H).
  - intros d f w w' H. exact (fetch_file_done output_dir (Some d) f w w' H).
Qed.

(* --------------------------------------------------------------------- *)
(** *** The round trip of a small tree *)

Lemma path_join_relative a b :
  PyStr.startswith b "/" = false → path_join a b = join_prefix a ++ b.
Proof.
  intros Hb. unfold path_join, join_prefix. rewrite Hb.
  destruct (negb (PyStr.nonempty a) || PyStr.endswith slash a); [done|].
  by rewrite string_app_assoc.
Qed.














(** A file copy whose filesystem calls succeed. *)
Lemma fetch_file_run output_dir local_dir file_ w fs1 fs2 :
  let local_path := local_path_of local_dir (file_name file_) in
  let local_dir_path := match local_dir with
                        | Some d => path_join output_dir d
                        | None => output_dir
                        end in
  let local_file_path := path_join output_dir local_path in
  has_separator (file_name file_) = false →
  (if isdir (w_fs w) local_dir_path then (inr tt, w_fs w)
   else makedirs (w_fs w) local_dir_path) = (inr tt, fs1) →
  open_wb fs1 local_file_path = (inr tt, fs2) →
  fetch_file output_dir local_dir file_ w
  = let written := mkFS (fs_dirs fs2) (<[ local_file_path := file_data file_ ]> (fs_files fs2)) in
    match file_error file_ with
    | Some e => (inl e, mkWorld written (w_copied w) (w_queue w))
    | None => (inr tt,
               mkWorld written
                       (w_copied w ++ [(local_file_path, file_data file_)])
                       (w_queue w ++ [fetch_line file_ local_path output_dir]))
    end.
Proof.
  intros local_path local_dir_path local_file_path Hsep Hmk Hop.
  unfold fetch_file. rewrite Hsep. fold local_path local_dir_path local_file_path.
  unfold bind at 1.
  assert ((if isdir (w_fs w) local_dir_path then ret tt w
           else fs_call (fun fs => makedirs fs local_dir_path) w)
          = (inr tt, mkWorld fs1 (w_copied w) (w_queue w))) as ->.
  { destruct (isdir (w_fs w) local_dir_path).
    - injection Hmk as <-. by destruct w.
    - unfold fs_call. by rewrite Hmk. }
  unfold bind at 1, fs_call at 1. cbn [w_fs w_copied w_queue]. rewrite Hop.
  unfold bind, write_to, put. cbn [w_fs w_copied w_queue fs_files fs_dirs].
  by destruct (file_error file_).
Qed.






End FetchFacts.

(* ===================================================================== *)
(** ** The sample project *)
(* ===================================================================== *)


Lemma fetch_propagates_error_witness :
  Sample.fetch (mkFetchSpec "zzz" "" Sample.default_host "v1") "out" Sample.empty_fs
  = ([fetching_line "" "zzz" "https://api.test.some.host.nii.ac.jp/v2"],
     Raised (ClientError "Project not found: zzz"),
     mkWorld Sample.empty_fs []
             [fetching_line "" "zzz" "https://api.test.some.host.nii.ac.jp/v2"]).
Proof.
  apply (fetch_propagates_error TreeClient.Project (TreeClient.osf_project Sample.remote)
           TreeClient.project_storage TreeClient.project_storages TreeClient.find_by_path
           None (mkFetchSpec "zzz" "" Sample.default_host "v1") "out" Sample.empty_fs
           (ClientError "Project not found: zzz")
           (mkWorld Sample.empty_fs []
              [fetching_line "" "zzz" "https://api.test.some.host.nii.ac.jp/v2"])).
  reflexivity.
Defined.

Lemma separator_aborts_fetch_witness :
  Sample.fetch (mkFetchSpec "bad" "" Sample.default_host "v1") "out" Sample.empty_fs
  = match run_steps "out" [SFile (Some "osfstorage") Sample.a_txt]
            (mkWorld Sample.empty_fs []
               [fetching_line "" "bad" "https://api.test.some.host.nii.ac.jp/v2"]) with
    | (inl e', w) => (w_queue w, Raised e', w)
    | (inr _, w) =>
        (w_queue w, Raised (ValueError "Folder.name cannot include path separators: a/b"), w)
    end.
Proof.
  apply (separator_aborts_fetch TreeClient.Project (TreeClient.osf_project Sample.remote)
           TreeClient.project_storage TreeClient.project_storages TreeClient.find_by_path
           None (mkFetchSpec "bad" "" Sample.default_host "v1") "out" Sample.empty_fs
           "https://api.test.some.host.nii.ac.jp/v2" None [Sample.broken]
           [SFile (Some "osfstorage") Sample.a_txt] (SEnter "a/b")
           [SFile (Some "osfstorage/a/b") Sample.b_txt]).
  - reflexivity.
  - reflexivity.
  - reflexivity.
  - reflexivity.
  - reflexivity.
Defined.

Lemma missing_segment_fails_witness :
  Sample.fetch (mkFetchSpec "abc" "osfstorage/missing/segment" Sample.default_host "v1")
               "out" Sample.empty_fs
  = ([fetching_line "osfstorage/missing/segment" "abc"
        "https://api.test.some.host.nii.ac.jp/v2"],
     Raised (RuntimeError "Could not find path osfstorage/missing/segment"),
     mkWorld Sample.empty_fs []
       [fetching_line "osfstorage/missing/segment" "abc"
          "https://api.test.some.host.nii.ac.jp/v2"]).
Proof.
  apply (missing_segment_fails TreeClient.Project (TreeClient.osf_project Sample.remote)
           TreeClient.project_storage TreeClient.project_storages TreeClient.find_by_path
           None (mkFetchSpec "abc" "osfstorage/missing/segment" Sample.default_host "v1")
           "out" Sample.empty_fs "https://api.test.some.host.nii.ac.jp/v2" None
           [Sample.osfstorage] "osfstorage" "missing/segment" Sample.osfstorage).
  - reflexivity.
  - reflexivity.
  - reflexivity.
  - reflexivity.
  - reflexivity.
  - reflexivity.
  - reflexivity.
Defined.

Lemma progress_stream_witness :
  ∃ copies ending w,
    Sample.fetch (mkFetchSpec "abc" "" Sample.default_host "v1") "out" Sample.empty_fs
    = (fetching_line "" "abc" "https://api.test.some.host.nii.ac.jp/v2"
         :: (copy_line "out" <$> copies),
       ending, w)
    ∧ w_copied w = copy_write "out" <$> copies.
Proof.
  apply (progress_stream TreeClient.Project (TreeClient.osf_project Sample.remote)
           TreeClient.project_storage TreeClient.project_storages TreeClient.find_by_path
           None (mkFetchSpec "abc" "" Sample.default_host "v1") "out" Sample.empty_fs
           "https://api.test.some.host.nii.ac.jp/v2/").
  reflexivity.
Defined.

(** C9, as stated, fails: the first line does not show the configured api
    value of the default host, which ends with a slash. *)
Lemma first_line_drops_final_slash :
  ¬ (∀ spec output_dir fs api,
       Py.getitem (spec_host spec) "api" = inr (JStr api) →
       ∃ rest ending w,
         Sample.fetch spec output_dir fs
         = (fetching_line (spec_path spec) (spec_project_id spec) api :: rest,
            ending, w)).
Proof.
  intros H.
  destruct (H (mkFetchSpec "abc" "" Sample.default_host "v1") "out" Sample.empty_fs
              "https://api.test.some.host.nii.ac.jp/v2/" eq_refl)
    as (rest & ending & w & Heq).
  vm_compute in Heq. discriminate Heq.
Qed.

Lemma subpath_walk_has_no_prefix_witness :
  _fetch TreeClient.Project (TreeClient.osf_project Sample.remote)
         TreeClient.project_storage TreeClient.project_storages TreeClient.find_by_path
         None (mkFetchSpec "abc" "osfstorage" Sample.default_host "v1") "out"
         (mkWorld Sample.empty_fs [] [])
  = (put (fetching_line "osfstorage" "abc" "https://api.test.some.host.nii.ac.jp/v2") ;;
     run_steps "out" [SFile None Sample.a_txt; SEnter "dir"; SFile (Some "dir") Sample.b_txt])
      (mkWorld Sample.empty_fs [] []).
Proof.
  destruct (subpath_walk_has_no_prefix TreeClient.Project
              (TreeClient.osf_project Sample.remote)
              TreeClient.project_storage TreeClient.project_storages
              TreeClient.find_by_path None
              (mkFetchSpec "abc" "osfstorage" Sample.default_host "v1") "out"
              "https://api.test.some.host.nii.ac.jp/v2" None [Sample.osfstorage]
              [SFile None Sample.a_txt; SEnter "dir"; SFile (Some "dir") Sample.b_txt])
    as [Hrun _].
  - reflexivity.
  - reflexivity.
  - reflexivity.
  - reflexivity.
  - apply Hrun.
Defined.

(* ===================================================================== *)
(** ** Further properties: predicates *)
(* ===================================================================== *)

(** A host object none of whose hostnames is a prefix of [source]. *)
Definition host_lacks_prefix (source : string) (h : json) : Prop :=
  ∃ items names,
    h = JObj items ∧ Py.assoc "hostname" items = Some (JArr (JStr <$> names))
    ∧ Forall (fun n => PyStr.startswith source n = false) names.

(** A value [detect] can iterate over without meeting an item: the empty
    list, the empty dictionary and the empty string. *)
Definition empty_iterable (v : json) : Prop :=
  v = JArr [] ∨ v = JObj [] ∨ v = JStr "".

(** The copies the entries of a walk make when all of them succeed. *)
Definition step_copies (steps : list step) : list (RFile * string) :=
  s ← steps;
  match s with
  | SFile local_dir file_ => [(file_, local_path_of local_dir (file_name file_))]
  | SEnter _ | SRaise _ => []
  end.

(** A computation that removes nothing from the filesystem: directories
    stay, and a path that holds a regular file still holds one. *)
Definition keeps_files {A} (m : M A) : Prop :=
  ∀ w r w', m w = (r, w') →
    fs_dirs (w_fs w) ⊆ fs_dirs (w_fs w')
    ∧ ∀ p, is_Some (fs_files (w_fs w) !! p) → is_Some (fs_files (w_fs w') !! p).

(** A path that does not start with ["/"]. *)
Definition relative (p : string) : Prop := PyStr.startswith p "/" = false.

(** A computation whose copies all go to a relative path joined to the
    output directory. *)
Definition copies_inside (output_dir : string) {A} (m : M A) : Prop :=
  ∀ w r w', m w = (r, w') →
    ∃ added, w_copied w' = (w_copied w ++ added)%list
             ∧ Forall (fun c => ∃ rel, relative rel ∧ c.1 = join_prefix output_dir ++ rel)
                      added.

(* ===================================================================== *)
(** ** Further properties of the construction *)
(* ===================================================================== *)

Section ConstructionMore.

Variable json_dumps : json -> string.

Lemma check_host_accepts_objects_only h :
  check_host json_dumps h = inr tt →
  ∃ items names,
    h = JObj items ∧ Py.assoc "hostname" items = Some (JArr names)
    ∧ is_Some (Py.assoc "api" items).
Proof.
  destruct h as [| b | lit | s | l | items]; try done.
  - unfold check_host. cbn [Py.contains rbind].
    by destruct (PyStr.is_substring "hostname" s).
  - unfold check_host. cbn [Py.contains rbind].
    by destruct (existsb (Py.is_str "hostname") l).
  - intros H. destruct (check_host_obj_ok json_dumps items H) as [[names Hn] Ha].
    by exists items, names.
Qed.

(** X1.  Every element of a list configuration the constructor accepts is
    an object with a list under ["hostname"] and an ["api"] key: a string, a
    number, a list or a null among the hosts fails the construction. *)
Theorem init_accepts_objects_only env self l h :
  init json_dumps env = inr self →
  hosts self = JArr l →
  h ∈ l →
  ∃ items names,
    h = JObj items ∧ Py.assoc "hostname" items = Some (JArr names)
    ∧ is_Some (Py.assoc "api" items).
Proof.
  unfold init. destruct (load_hosts env) as [e|loaded]; cbn [rbind]; [done|].
  destruct loaded as [| b | lit | s | l' | items]; cbn [rbind];
    try (intros [= <-]; cbn [hosts]; done).
  destruct (check_hosts json_dumps l') as [e|[]] eqn:Hc; cbn [rbind]; [done|].
  intros [= <-]. cbn [hosts]. intros [= <-] Hin.
  apply check_host_accepts_objects_only.
  apply check_hosts_ok in Hc. rewrite Forall_forall in Hc. by apply Hc.
Qed.

(** X2.  A loaded configuration that is not a list is accepted as it is,
    without any check. *)
Theorem init_skips_non_list env v :
  load_hosts env = inr v →
  Py.is_list v = false →
  init json_dumps env = inr (mkRDM v None None None).
Proof.
  intros Hload Hv. unfold init. rewrite Hload. cbn [rbind].
  by destruct v.
Qed.

(** X3.  The file named by [RDM_HOSTS] is loaded before [RDM_HOSTS_JSON]
    is looked at: when loading it fails, the construction fails with that
    error whatever [RDM_HOSTS_JSON] holds; when it loads, or is not set,
    the hosts of an accepted instance are those of [RDM_HOSTS_JSON]. *)
Theorem init_override_order file_hosts inline_hosts :
  (∀ e, file_hosts = Some (inl e) →
        init json_dumps (mkEnviron file_hosts inline_hosts) = inl e)
  ∧ (∀ v self, file_hosts ≠ None → (∀ e, file_hosts ≠ Some (inl e)) →
       inline_hosts = Some (inr v) →
       init json_dumps (mkEnviron file_hosts inline_hosts) = inr self →
       hosts self = v)
  ∧ (∀ v self, inline_hosts = None → file_hosts = Some (inr v) →
       init json_dumps (mkEnviron file_hosts inline_hosts) = inr self →
       hosts self = v).
Proof.
  split; [|split].
  - by intros e ->.
  - intros v self Hset Hok ->. unfold init, load_hosts. cbn [RDM_HOSTS RDM_HOSTS_JSON].
    destruct file_hosts as [[e|v']|]; [by destruct (Hok e)| |done].
    cbn [rbind]. destruct (match v with JArr l => _ | _ => _ end); cbn [rbind]; [done|].
    by intros [= <-].
  - intros v self -> ->. unfold init, load_hosts. cbn [RDM_HOSTS RDM_HOSTS_JSON rbind].
    destruct (match v with JArr l => _ | _ => _ end); cbn [rbind]; [done|].
    by intros [= <-].
Qed.

End ConstructionMore.

Lemma init_accepts_objects_only_witness :
  ∃ items names,
    Sample.default_host = JObj items
    ∧ Py.assoc "hostname" items = Some (JArr names)
    ∧ is_Some (Py.assoc "api" items).
Proof.
  apply (init_accepts_objects_only Sample.json_dumps (mkEnviron None None) Sample.self
           [Sample.default_host] Sample.default_host).
  - reflexivity.
  - reflexivity.
  - apply list_elem_of_here.
Defined.

Lemma init_skips_non_list_witness :
  init Sample.json_dumps (mkEnviron None (Some (inr (JObj [("api", JStr "x")]))))
  = inr (mkRDM (JObj [("api", JStr "x")]) None None None).
Proof.
  apply (init_skips_non_list Sample.json_dumps
           (mkEnviron None (Some (inr (JObj [("api", JStr "x")]))))).
  - reflexivity.
  - reflexivity.
Defined.

(* ===================================================================== *)
(** ** Further properties of the detection *)
(* ===================================================================== *)

Lemma host_lacks_prefix_matches source h :
  host_lacks_prefix source h → host_matches source h = inr false.
Proof.
  intros (items & names & -> & Hn & Hall).
  rewrite (host_matches_well_formed _ _ _ Hn). f_equal. clear Hn.
  induction Hall as [|n names Hn' _ IH]; [done|]. cbn [existsb]. by rewrite Hn', IH.
Qed.

Lemma host_has_prefix_matches source h :
  host_has_prefix source h → host_matches source h = inr true.
Proof.
  intros (items & names & p & -> & Hn & Hin & Hp).
  rewrite (host_matches_well_formed _ _ _ Hn). f_equal.
  apply existsb_exists. exists p. split; [by apply list_elem_of_In|done].
Qed.

Lemma split_first_head c s : PyStr.contains c (PyStr.split_first c s).1 = false.
Proof.
  induction s as [|a s IH]; cbn; [done|].
  destruct (Ascii.eqb a c) eqn:Ha; [done|].
  destruct (PyStr.split_first c s) as [h t]. cbn in *. by rewrite Ha.
Qed.

(** The project id taken from a URL path never holds a ["/"]. *)
Lemma parse_path_project_id_no_slash upath :
  PyStr.contains slash (parse_path upath).1 = false.
Proof.
  unfold parse_path.
  set (p := if PyStr.startswith upath "/" then PyStr.drop 1 upath else upath).
  destruct (PyStr.contains slash p) eqn:Hp; [|done].
  pose proof (split_first_head slash p) as H.
  by destruct (PyStr.split_first slash p).
Qed.

Section DetectionMore.

Variable urlparse_path : string -> result string.
Variable uuid1 : nat -> string.

Lemma detect_loop_skip self clock source ref pre rest :
  Forall (fun h => host_matches source h = inr false) pre →
  detect_loop urlparse_path uuid1 self clock source ref (pre ++ rest)
  = detect_loop urlparse_path uuid1 self clock source ref rest.
Proof.
  induction 1 as [|h pre Hh _ IH]; [done|].
  cbn [app detect_loop]. by rewrite Hh.
Qed.

(** X4.  When no hostname of any host is a prefix of [source], [detect]
    returns [None]: the instance keeps its attributes and no identifier is
    generated. *)
Theorem detect_no_match self clock source ref hs :
  hosts self = JArr hs →
  Forall (host_lacks_prefix source) hs →
  detect urlparse_path uuid1 self clock source ref = inr (None, self, clock).
Proof.
  intros Hhosts Hall. unfold detect. rewrite Hhosts. cbn [Py.iter rbind].
  rewrite <- (app_nil_r hs). rewrite detect_loop_skip; [done|].
  eapply Forall_impl; [exact Hall|]. apply host_lacks_prefix_matches.
Qed.

(** X5.  The first host with a matching hostname wins: when the hosts
    before [h] do not match and [h] does, the spec carries [h], whatever
    hosts follow. *)
Theorem detect_first_match_wins self clock source ref pre h post upath :
  hosts self = JArr (pre ++ h :: post) →
  Forall (host_lacks_prefix source) pre →
  host_has_prefix source h →
  urlparse_path source = inr upath →
  ∃ spec self' clock',
    detect urlparse_path uuid1 self clock source ref = inr (Some spec, self', clock')
    ∧ spec_host spec = h
    ∧ hosts self' = hosts self.
Proof.
  intros Hhosts Hpre Hh Hurl. unfold detect. rewrite Hhosts. cbn [Py.iter rbind].
  rewrite detect_loop_skip
    by (eapply Forall_impl; [exact Hpre|]; apply host_lacks_prefix_matches).
  cbn [detect_loop]. rewrite (host_has_prefix_matches _ _ Hh), Hurl. cbn [rbind].
  destruct (parse_path upath) as [pid p].
  destruct (match ref with Some r => _ | None => _ end) as [u clock'].
  by eexists _, _, _.
Qed.

(** X6.  With a configuration that is neither a list nor an empty
    dictionary or string, [detect] raises [TypeError] for every source. *)
Theorem detect_non_list_hosts self clock source ref :
  Py.is_list (hosts self) = false →
  ¬ empty_iterable (hosts self) →
  detect urlparse_path uuid1 self clock source ref = inl TypeError.
Proof.
  intros Hl Hne. unfold detect, empty_iterable in *.
  destruct (hosts self) as [| b | lit | s | l | items]; try done.
  - destruct s as [|c s]; [by destruct Hne; auto|]. done.
  - destruct items as [|[k v] items]; [by destruct Hne; auto|]. done.
Qed.

Lemma detect_loop_none self clock source ref hs self' clock' :
  detect_loop urlparse_path uuid1 self clock source ref hs = inr (None, self', clock') →
  self' = self ∧ clock' = clock.
Proof.
  induction hs as [|h hs IH]; cbn [detect_loop].
  - by intros [= <- <-].
  - destruct (host_matches source h) as [e|[]]; cbn [rbind]; [done| |exact IH].
    destruct (urlparse_path source) as [e|upath]; cbn [rbind]; [done|].
    destruct (parse_path upath) as [pid p].
    by destruct (match ref with Some r => _ | None => _ end).
Qed.

(** X7.  On an instance just constructed, a [detect] that returns [None]
    sets nothing, and reading [content_id] raises [AttributeError]. *)
Theorem content_id_needs_match json_dumps env self clock source ref self' clock' :
  init json_dumps env = inr self →
  detect urlparse_path uuid1 self clock source ref = inr (None, self', clock') →
  self' = self ∧ clock' = clock ∧ content_id self' = inl AttributeError.
Proof.
  intros Hinit Hd. unfold detect in Hd.
  destruct (Py.iter (hosts self)) as [e|hs]; cbn [rbind] in Hd; [done|].
  apply detect_loop_none in Hd as [-> ->]. split; [done|]. split; [done|].
  unfold init in Hinit. destruct (load_hosts env) as [e|v]; cbn [rbind] in Hinit; [done|].
  destruct (match v with JArr l => _ | _ => _ end); cbn [rbind] in Hinit; [done|].
  by injection Hinit as <-.
Qed.

End DetectionMore.

Lemma detect_no_match_witness :
  detect Sample.urlparse_path Sample.uuid1 Sample.self 0 "https://github.com/a/b" None
  = inr (None, Sample.self, 0).
Proof.
  apply (detect_no_match Sample.urlparse_path Sample.uuid1 Sample.self 0
           "https://github.com/a/b" None [Sample.default_host]).
  - reflexivity.
  - constructor; [|constructor].
    exists [("hostname", JArr [JStr "https://test.some.host.nii.ac.jp/"]);
            ("api", JStr "https://api.test.some.host.nii.ac.jp/v2/")],
           ["https://test.some.host.nii.ac.jp/"].
    split; [reflexivity|]. split; [reflexivity|].
    constructor; [reflexivity|constructor].
Defined.

Lemma detect_first_match_wins_witness :
  ∃ spec self' clock',
    detect Sample.urlparse_path Sample.uuid1
           (mkRDM (JArr [JObj [("hostname", JArr [JStr "https://a/"]); ("api", JStr "x")];
                         Sample.default_host; Sample.default_host]) None None None)
           0 "https://test.some.host.nii.ac.jp/abc" None
    = inr (Some spec, self', clock')
    ∧ spec_host spec = Sample.default_host
    ∧ hosts self'
      = JArr [JObj [("hostname", JArr [JStr "https://a/"]); ("api", JStr "x")];
              Sample.default_host; Sample.default_host].
Proof.
  apply (detect_first_match_wins Sample.urlparse_path Sample.uuid1
           (mkRDM (JArr [JObj [("hostname", JArr [JStr "https://a/"]); ("api", JStr "x")];
                         Sample.default_host; Sample.default_host]) None None None)
           0 "https://test.some.host.nii.ac.jp/abc" None
           [JObj [("hostname", JArr [JStr "https://a/"]); ("api", JStr "x")]]
           Sample.default_host [Sample.default_host] "/abc").
  - reflexivity.
  - constructor; [|constructor].
    exists [("hostname", JArr [JStr "https://a/"]); ("api", JStr "x")], ["https://a/"].
    split; [reflexivity|]. split; [reflexivity|].
    constructor; [reflexivity|constructor].
  - exists [("hostname", JArr [JStr "https://test.some.host.nii.ac.jp/"]);
            ("api", JStr "https://api.test.some.host.nii.ac.jp/v2/")],
           ["https://test.some.host.nii.ac.jp/"], "https://test.some.host.nii.ac.jp/".
    split; [reflexivity|]. split; [reflexivity|].
    split; [apply list_elem_of_here|reflexivity].
  - reflexivity.
Defined.

Lemma detect_non_list_hosts_witness :
  detect Sample.urlparse_path Sample.uuid1
         (mkRDM (JObj [("hostname", JArr [JStr "https://a/"]); ("api", JStr "x")])
                None None None)
         0 "https://a/abc" None
  = inl TypeError.
Proof.
  apply (detect_non_list_hosts Sample.urlparse_path Sample.uuid1).
  - reflexivity.
  - intros [H|[H|H]]; discriminate H.
Defined.

Lemma content_id_needs_match_witness :
  Sample.self = Sample.self ∧ 0 = 0 ∧ content_id Sample.self = inl AttributeError.
Proof.
  apply (content_id_needs_match Sample.urlparse_path Sample.uuid1 Sample.json_dumps
           (mkEnviron None None) Sample.self 0 "https://github.com/a/b" None
           Sample.self 0).
  - reflexivity.
  - reflexivity.
Defined.

(* ===================================================================== *)
(** ** Further properties of the walk *)
(* ===================================================================== *)

Lemma keeps_files_ret {A} (a : A) : keeps_files (ret a).
Proof. by intros w r w' [= <- <-]. Qed.

Lemma keeps_files_raise {A} (e : exn) : keeps_files (@raise A e).
Proof. by intros w r w' [= <- <-]. Qed.

Lemma keeps_files_lift {A} (x : result A) : keeps_files (lift x).
Proof. by intros w r w' [= <- <-]. Qed.

Lemma keeps_files_raise_opt e : keeps_files (raise_opt e).
Proof. destruct e; [apply keeps_files_raise|apply keeps_files_ret]. Qed.

Lemma keeps_files_put line : keeps_files (put line).
Proof. by intros w r w' [= <- <-]. Qed.

Lemma keeps_files_bind {A B} (m : M A) (k : A → M B) :
  keeps_files m → (∀ a, keeps_files (k a)) → keeps_files (bind m k).
Proof.
  intros Hm Hk w r w'. unfold bind.
  destruct (m w) as [[e|a] w1] eqn:H1.
  - intros [= <- <-]. by apply (Hm _ _ _ H1).
  - intros H2. destruct (Hm _ _ _ H1) as [Hd1 Hf1]. destruct (Hk a _ _ _ H2) as [Hd2 Hf2].
    split; [set_solver|]. intros p Hp. by apply Hf2, Hf1.
Qed.

Lemma keeps_files_for_each {A} (body : A → M unit) l :
  Forall (fun x => keeps_files (body x)) l → keeps_files (for_each body l).
Proof.
  induction 1 as [|x l Hx _ IH]; cbn [for_each]; [apply keeps_files_ret|].
  apply keeps_files_bind; [done|]. by intros _.
Qed.

Lemma keeps_files_makedirs p : keeps_files (fs_call (fun fs => makedirs fs p)).
Proof.
  intros w r w' (Hmk & _ & _)%fs_call_inv.
  destruct (makedirs_keeps _ _ _ _ Hmk) as [Hdirs Hfiles].
  split; [done|]. intros q. by rewrite Hfiles.
Qed.

Lemma keeps_files_open_wb p : keeps_files (fs_call (fun fs => open_wb fs p)).
Proof.
  intros w r w' (Hop & _ & _)%fs_call_inv.
  destruct (open_wb_keeps _ _ _ _ Hop) as [Hdirs [Hfiles|Hfiles]]; rewrite Hdirs, Hfiles.
  - done.
  - split; [done|]. intros q Hq. destruct (decide (p = q)) as [->|Hne].
    + rewrite lookup_insert_eq. eauto.
    + by rewrite lookup_insert_ne.
Qed.

Lemma keeps_files_write_to file_ p : keeps_files (write_to file_ p).
Proof.
  intros w r w'. unfold write_to.
  assert (∀ q, is_Some (fs_files (w_fs w) !! q) →
               is_Some (<[p:=file_data file_]> (fs_files (w_fs w)) !! q)) as Hins.
  { intros q Hq. destruct (decide (p = q)) as [->|Hne].
    - rewrite lookup_insert_eq. eauto.
    - by rewrite lookup_insert_ne. }
  destruct (file_error file_); intros [= <- <-]; by cbn [w_fs fs_dirs fs_files].
Qed.

Lemma keeps_files_fetch_file output_dir local_dir file_ :
  keeps_files (fetch_file output_dir local_dir file_).
Proof.
  unfold fetch_file. destruct (has_separator (file_name file_)); [apply keeps_files_raise|].
  apply keeps_files_bind.
  { intros w r w'. destruct (isdir (w_fs w) _);
      [apply keeps_files_ret|apply keeps_files_makedirs]. }
  intros _. apply keeps_files_bind; [apply keeps_files_open_wb|]. intros _.
  apply keeps_files_bind; [apply keeps_files_write_to|]. intros _. apply keeps_files_put.
Qed.

Lemma keeps_files_exec_step output_dir s : keeps_files (exec_step output_dir s).
Proof.
  destruct s as [ld f|name|e]; cbn [exec_step].
  - apply keeps_files_fetch_file.
  - unfold check_folder_name. destruct (has_separator name);
      [apply keeps_files_raise|apply keeps_files_ret].
  - apply keeps_files_raise.
Qed.

Lemma keeps_files_run_steps output_dir steps : keeps_files (run_steps output_dir steps).
Proof.
  apply keeps_files_for_each, Forall_forall. intros s _. apply keeps_files_exec_step.
Qed.

Lemma keeps_files_fetch_storage output_dir storage local_dir :
  keeps_files (_fetch_storage storage output_dir local_dir).
Proof.
  intros w r w' H. rewrite (fetch_storage_linear storage output_dir local_dir w) in H.
  exact (keeps_files_run_steps _ _ _ _ _ H).
Qed.

(** The directory of a file that was copied exists afterwards. *)
Lemma fetch_file_done_dir output_dir local_dir file_ w w' :
  fetch_file output_dir local_dir file_ w = (inr tt, w') →
  match local_dir with
  | Some d => path_join output_dir d
  | None => output_dir
  end ∈ fs_dirs (w_fs w').
Proof.
  unfold fetch_file. destruct (has_separator (file_name file_)); [done|].
  set (dirp := match local_dir with Some d => path_join output_dir d | None => output_dir end).
  unfold bind at 1.
  destruct (if isdir (w_fs w) dirp then _ else _) as [[e|[]] w1] eqn:Hmk; [done|].
  apply dir_step_inv in Hmk as (_ & _ & _ & _ & Hin). specialize (Hin eq_refl).
  intros Hrest.
  assert (keeps_files
            (fs_call (fun fs => open_wb fs
                        (path_join output_dir (local_path_of local_dir (file_name file_)))) ;;
             write_to file_ (path_join output_dir (local_path_of local_dir (file_name file_))) ;;
             put (fetch_line file_ (local_path_of local_dir (file_name file_)) output_dir)))
    as Hkeep.
  { apply keeps_files_bind; [apply keeps_files_open_wb|]. intros _.
    apply keeps_files_bind; [apply keeps_files_write_to|]. intros _. apply keeps_files_put. }
  destruct (Hkeep _ _ _ Hrest) as [Hsub _]. by apply Hsub.
Qed.

Lemma check_folder_name_done name w r w' :
  check_folder_name name w = (r, w') → w' = w.
Proof.
  unfold check_folder_name. by destruct (has_separator name); intros [= <- <-].
Qed.

(** What a run of entries that returns has done. *)
Lemma run_steps_done output_dir steps :
  ∀ w w', run_steps output_dir steps w = (inr tt, w') →
    w_queue w' = (w_queue w ++ (copy_line output_dir <$> step_copies steps))%list
    ∧ w_copied w' = (w_copied w ++ (copy_write output_dir <$> step_copies steps))%list
    ∧ Forall (fun s => offending s = None ∧ ∀ e, s ≠ SRaise e) steps
    ∧ ∀ local_dir file_, SFile local_dir file_ ∈ steps →
        match local_dir with
        | Some d => path_join output_dir d
        | None => output_dir
        end ∈ fs_dirs (w_fs w')
        ∧ is_Some (fs_files (w_fs w')
                     !! path_join output_dir (local_path_of local_dir (file_name file_))).
Proof.
  induction steps as [|s steps IH]; intros w w'.
  - intros [= <-]. rewrite !app_nil_r. split; [done|]. split; [done|].
    split; [constructor|]. by intros ld f ?%elem_of_nil.
  - unfold run_steps. cbn [for_each]. unfold bind at 1.
    destruct (exec_step output_dir s w) as [[e|[]] w1] eqn:Hs; [done|].
    intros Hrest. fold (run_steps output_dir steps) in Hrest.
    destruct (IH _ _ Hrest) as (Hq & Hc & Hall & Hex).
    destruct (keeps_files_run_steps _ _ _ _ _ Hrest) as [Hdirs Hfiles].
    destruct s as [ld f|name|e]; cbn [exec_step] in Hs.
    + destruct (fetch_file_done _ _ _ _ _ Hs) as (Hq1 & Hc1 & Hf1).
      pose proof (fetch_file_done_dir _ _ _ _ _ Hs) as Hd1.
      assert (offending (SFile ld f) = None) as Hoff.
      { cbn [offending]. unfold fetch_file in Hs.
        by destruct (has_separator (file_name f)). }
      cbn [step_copies mbind list_bind app fmap list_fmap].
      change (list_bind _ _ ?f steps) with (step_copies steps) in *.
      rewrite Hq, Hc, Hq1, Hc1, <- !app_assoc. split; [done|]. split; [done|].
      split; [by constructor|].
      intros ld' f' [[= -> ->]|Hin]%elem_of_cons; [|by apply Hex].
      split; [apply Hdirs, Hd1|]. apply Hfiles. rewrite Hf1. eauto.
    + apply check_folder_name_done in Hs as Hw. subst w1.
      assert (offending (SEnter name) = None) as Hoff.
      { cbn [offending]. unfold check_folder_name in Hs.
        by destruct (has_separator name). }
      cbn [step_copies mbind list_bind app].
      change (list_bind _ _ ?f steps) with (step_copies steps) in *.
      split; [done|]. split; [done|]. split; [by constructor|].
      intros ld' f' [[=]|Hin]%elem_of_cons. by apply Hex.
    + done.
Qed.

Lemma startswith_slash_cons a s :
  PyStr.startswith (String a s) "/" = Ascii.eqb a slash.
Proof.
  cbn [PyStr.startswith]. rewrite (Ascii.eqb_sym _ a). fold slash.
  by destruct (Ascii.eqb a slash).
Qed.

Lemma relative_of_no_slash name : PyStr.contains slash name = false → relative name.
Proof.
  unfold relative. destruct name as [|a name]; [done|].
  rewrite startswith_slash_cons. cbn [PyStr.contains].
  by destruct (Ascii.eqb a slash).
Qed.

Lemma startswith_slash_app a b :
  PyStr.nonempty a = true → PyStr.startswith (a ++ b) "/" = PyStr.startswith a "/".
Proof.
  destruct a as [|x a]; [done|]. intros _. cbn [String.append].
  by rewrite !startswith_slash_cons.
Qed.

Lemma startswith_slash_path_join d name :
  PyStr.nonempty d = true → PyStr.startswith name "/" = false →
  PyStr.startswith (path_join d name) "/" = PyStr.startswith d "/".
Proof.
  intros Hd Hn. unfold path_join. rewrite Hn.
  destruct (negb (PyStr.nonempty d) || PyStr.endswith slash d);
    by rewrite startswith_slash_app.
Qed.

Lemma relative_path_join d name : relative d → relative name → relative (path_join d name).
Proof.
  unfold relative. intros Hd Hn. destruct (PyStr.nonempty d) eqn:Hne.
  - by rewrite startswith_slash_path_join.
  - destruct d; [|done]. unfold path_join. by rewrite Hn.
Qed.

Lemma relative_local_path local_dir name :
  has_separator name = false →
  (∀ d, local_dir = Some d → relative d) →
  relative (local_path_of local_dir name).
Proof.
  unfold has_separator. intros [Hs _]%orb_false_elim Hd.
  apply relative_of_no_slash in Hs.
  destruct local_dir as [d|]; cbn [local_path_of]; [|done].
  apply relative_path_join; [by apply Hd|done].
Qed.

Lemma path_join_absolute_right a b : PyStr.startswith b "/" = true → path_join a b = b.
Proof. intros H. unfold path_join. by rewrite H. Qed.

Lemma absolute_path_join d name :
  PyStr.startswith d "/" = true → PyStr.contains slash name = false →
  PyStr.startswith (path_join d name) "/" = true.
Proof.
  intros Hd Hn. apply relative_of_no_slash in Hn.
  rewrite startswith_slash_path_join; [done| |done]. by destruct d.
Qed.

Lemma copies_inside_same output_dir {A} (m : M A) :
  (∀ w r w', m w = (r, w') → w_copied w' = w_copied w) → copies_inside output_dir m.
Proof.
  intros H w r w' Hm. exists []. rewrite app_nil_r. split; [by eapply H|constructor].
Qed.

Lemma copies_inside_bind output_dir {A B} (m : M A) (k : A → M B) :
  copies_inside output_dir m → (∀ a, copies_inside output_dir (k a)) →
  copies_inside output_dir (bind m k).
Proof.
  intros Hm Hk w r w'. unfold bind.
  destruct (m w) as [[e|a] w1] eqn:H1.
  - intros [= <- <-]. by apply (Hm _ _ _ H1).
  - intros H2. destruct (Hm _ _ _ H1) as (c1 & Hc1 & Hall1).
    destruct (Hk a _ _ _ H2) as (c2 & Hc2 & Hall2).
    exists (c1 ++ c2)%list. rewrite Hc2, Hc1, app_assoc. split; [done|].
    by apply Forall_app.
Qed.

Lemma copies_inside_for_each output_dir {A} (body : A → M unit) l :
  Forall (fun x => copies_inside output_dir (body x)) l →
  copies_inside output_dir (for_each body l).
Proof.
  induction 1 as [|x l Hx _ IH]; cbn [for_each].
  - apply copies_inside_same. by intros w r w' [= _ <-].
  - apply copies_inside_bind; [done|]. by intros _.
Qed.

Lemma copies_inside_raise_opt output_dir e : copies_inside output_dir (raise_opt e).
Proof. apply copies_inside_same. by destruct e; intros w r w' [= _ <-]. Qed.

Lemma copies_inside_fetch_file output_dir local_dir file_ :
  (∀ d, local_dir = Some d → relative d) →
  copies_inside output_dir (fetch_file output_dir local_dir file_).
Proof.
  intros Hd. unfold fetch_file.
  destruct (has_separator (file_name file_)) eqn:Hsep.
  { apply copies_inside_same. by intros w r w' [= _ <-]. }
  pose proof (relative_local_path local_dir (file_name file_) Hsep Hd) as Hrel.
  apply copies_inside_bind.
  { apply copies_inside_same. intros w r w' H.
    by apply dir_step_inv in H as (? & _). }
  intros _. apply copies_inside_bind.
  { apply copies_inside_same. intros w r w' H.
    by apply fs_call_inv in H as (_ & ? & _). }
  intros _ w r w'. unfold bind, write_to, put.
  destruct (file_error file_); intros [= _ <-]; cbn [w_copied].
  - exists []. by rewrite app_nil_r.
  - eexists [_]. split; [done|]. constructor; [|constructor].
    exists (local_path_of local_dir (file_name file_)). split; [done|].
    cbn [fst]. by apply path_join_relative.
Qed.

Lemma copies_inside_fetch_storage output_dir storage :
  ∀ local_dir, (∀ d, local_dir = Some d → relative d) →
    copies_inside output_dir (_fetch_storage storage output_dir local_dir).
Proof.
  induction storage as [name fs fe ds de IH] using Folder_nested_ind.
  intros local_dir Hd. cbn [_fetch_storage files files_error folders folders_error].
  apply copies_inside_bind.
  { apply copies_inside_for_each, Forall_forall. intros f _.
    by apply copies_inside_fetch_file. }
  intros _. apply copies_inside_bind; [apply copies_inside_raise_opt|]. intros _.
  apply copies_inside_bind; [|intros _; apply copies_inside_raise_opt].
  apply copies_inside_for_each. eapply Forall_impl; [exact IH|]. intros d IHd.
  unfold check_folder_name. destruct (has_separator (folder_name d)) eqn:Hsep.
  { apply copies_inside_same. by intros w r w' [= _ <-]. }
  apply copies_inside_bind.
  { apply copies_inside_same. by intros w r w' [= _ <-]. }
  intros _. apply IHd. intros d' [= <-]. by apply relative_local_path.
Qed.

Lemma rstrip_app_char c s : PyStr.rstrip c (s ++ String c "") = PyStr.rstrip c s.
Proof.
  induction s as [|a s IH]; cbn.
  - by rewrite Ascii.eqb_refl.
  - by rewrite IH.
Qed.

(** X13.  A file whose copy fails, at whatever point, is neither reported
    nor counted as copied. *)
Theorem failed_copy_not_reported output_dir local_dir file_ w e w' :
  fetch_file output_dir local_dir file_ w = (inl e, w') →
  w_queue w' = w_queue w ∧ w_copied w' = w_copied w.
Proof.
  unfold fetch_file. destruct (has_separator (file_name file_)); [by intros [= _ <-]|].
  unfold bind at 1.
  destruct (if isdir (w_fs w) _ then _ else _) as [[e1|[]] w1] eqn:Hmk;
    apply dir_step_inv in Hmk as (Hc1 & Hq1 & _).
  - by intros [= _ <-].
  - unfold bind at 1.
    destruct (fs_call _ w1) as [[e2|[]] w2] eqn:Hop;
      apply fs_call_inv in Hop as (_ & Hc2 & Hq2).
    + intros [= _ <-]. by rewrite Hc2, Hq2.
    + unfold bind, write_to, put. cbn [w_fs w_copied w_queue].
      destruct (file_error file_); [|done]. intros [= _ <-].
      cbn [w_queue w_copied]. by rewrite Hc2, Hq2.
Qed.

(** X14.  When the local directory is there or is made, the local file
    is opened and the download then fails, the walk raises the error of
    the download and the local file is left with the bytes written before
    the failure; no line is queued for it and it is not counted as
    copied. *)
Theorem failed_download_leaves_file output_dir local_dir file_ w fs1 fs2 e :
  let local_path := local_path_of local_dir (file_name file_) in
  let local_dir_path := match local_dir with
                        | Some d => path_join output_dir d
                        | None => output_dir
                        end in
  let local_file_path := path_join output_dir local_path in
  has_separator (file_name file_) = false →
  file_error file_ = Some e →
  (if isdir (w_fs w) local_dir_path then (inr tt, w_fs w)
   else makedirs (w_fs w) local_dir_path) = (inr tt, fs1) →
  open_wb fs1 local_file_path = (inr tt, fs2) →
  ∃ w', fetch_file output_dir local_dir file_ w = (inl e, w')
        ∧ fs_files (w_fs w') !! local_file_path = Some (file_data file_)
        ∧ local_dir_path ∈ fs_dirs (w_fs w')
        ∧ w_queue w' = w_queue w ∧ w_copied w' = w_copied w.
Proof.
  intros local_path local_dir_path local_file_path Hsep Herr Hmk Hop.
  rewrite (fetch_file_run output_dir local_dir file_ w fs1 fs2 Hsep Hmk Hop), Herr.
  eexists. split; [done|]. cbn [w_fs w_queue w_copied fs_files fs_dirs].
  split; [apply lookup_insert_eq|]. split; [|done].
  destruct (open_wb_keeps _ _ _ _ Hop) as [-> _].
  fold local_dir_path in Hmk. destruct (isdir (w_fs w) local_dir_path) eqn:Hd.
  - injection Hmk as <-. by apply isdir_elem.
  - by apply makedirs_done in Hmk.
Qed.

Lemma failed_copy_not_reported_witness :
  w_queue (mkWorld Sample.empty_fs [] []) = []
  ∧ w_copied (mkWorld Sample.empty_fs [] []) = [].
Proof.
  apply (failed_copy_not_reported "out" None (mkRFile "a/b" "/a/b" [] None)
           (mkWorld Sample.empty_fs [] [])
           (ValueError "File.name cannot include path separators: a/b")
           (mkWorld Sample.empty_fs [] [])).
  reflexivity.
Defined.

Lemma failed_download_leaves_file_witness :
  ∃ w', fetch_file "out" (Some "osfstorage")
          (mkRFile "a.txt" "/a.txt" [Byte.x68] (Some (ClientError "reset")))
          (mkWorld Sample.empty_fs [] [])
        = (inl (ClientError "reset"), w')
        ∧ fs_files (w_fs w') !! "out/osfstorage/a.txt" = Some [Byte.x68]
        ∧ "out/osfstorage" ∈ fs_dirs (w_fs w')
        ∧ w_queue w' = [] ∧ w_copied w' = [].
Proof.
  apply (failed_download_leaves_file "out" (Some "osfstorage")
           (mkRFile "a.txt" "/a.txt" [Byte.x68] (Some (ClientError "reset")))
           (mkWorld Sample.empty_fs [] [])
           (mkFS {[ "out/osfstorage"; "out" ]} ∅)
           (mkFS {[ "out/osfstorage"; "out" ]} {[ "out/osfstorage/a.txt" := [] ]})
           (ClientError "reset")).
  - reflexivity.
  - reflexivity.
  - vm_compute. reflexivity.
  - vm_compute. reflexivity.
Defined.

(* ===================================================================== *)
(** ** Further properties of a fetch *)
(* ===================================================================== *)

Section FetchMore.

Variable Project : Type.
Variable osf_project : option json -> string -> string -> result Project.
Variable project_storage : Project -> string -> result Folder.
Variable project_storages : Project -> list Folder * option exn.
Variable find_by_path : Folder -> string -> result (option Folder).
Variable OSF_TOKEN : option string.

Local Abbreviation producer :=
  (_fetch Project osf_project project_storage project_storages find_by_path OSF_TOKEN).
Local Abbreviation consumer :=
  (fetch Project osf_project project_storage project_storages find_by_path OSF_TOKEN).
Local Abbreviation resolved := (resolve Project project_storage find_by_path).
Local Abbreviation entries :=
  (roots_order Project project_storage project_storages find_by_path).

(** X9.  The consumer of a fetch never waits on an empty queue: the fetch
    ends by returning or by raising, having yielded every line the producer
    queued. *)
Theorem fetch_never_blocks spec output_dir fs :
  let outcome := fetch Project osf_project project_storage project_storages
                       find_by_path OSF_TOKEN spec output_dir fs in
  outcome.1.2 ≠ Blocked ∧ outcome.1.1 = w_queue outcome.2.
Proof.
  cbv zeta.
  destruct (producer spec output_dir (mkWorld fs [] [])) as [r w] eqn:Hrun.
  rewrite (fetch_of_producer _ _ _ _ _ _ _ _ _ _ _ Hrun). cbn [fst snd].
  by destruct r.
Qed.

Lemma keeps_files_fetch spec output_dir : keeps_files (producer spec output_dir).
Proof.
  unfold _fetch.
  apply keeps_files_bind; [apply keeps_files_lift|]. intros url.
  apply keeps_files_bind; [apply keeps_files_put|]. intros _.
  apply keeps_files_bind; [apply keeps_files_lift|]. intros tok.
  apply keeps_files_bind; [apply keeps_files_lift|]. intros project.
  destruct (PyStr.nonempty (spec_path spec)).
  - apply keeps_files_bind; [apply keeps_files_lift|]. intros storage.
    apply keeps_files_fetch_storage.
  - apply keeps_files_bind; [|intros _; apply keeps_files_raise_opt].
    apply keeps_files_for_each, Forall_forall. intros storage _.
    apply keeps_files_fetch_storage.
Qed.

(** X10.  A fetch removes nothing, however it ends: every directory that
    existed before exists after, and every path that held a regular file
    still holds one. *)
Theorem fetch_keeps_files spec output_dir fs :
  let outcome := fetch Project osf_project project_storage project_storages
                       find_by_path OSF_TOKEN spec output_dir fs in
  fs_dirs fs ⊆ fs_dirs (w_fs outcome.2)
  ∧ ∀ p, is_Some (fs_files fs !! p) → is_Some (fs_files (w_fs outcome.2) !! p).
Proof.
  cbv zeta.
  destruct (producer spec output_dir (mkWorld fs [] [])) as [r w] eqn:Hrun.
  rewrite (fetch_of_producer _ _ _ _ _ _ _ _ _ _ _ Hrun). cbn [snd].
  exact (keeps_files_fetch spec output_dir _ _ _ Hrun).
Qed.

Lemma fetch_finished_inv spec output_dir fs ls w :
  consumer spec output_dir fs = (ls, Finished, w) →
  producer spec output_dir (mkWorld fs [] []) = (inr tt, w) ∧ ls = w_queue w.
Proof.
  destruct (producer spec output_dir (mkWorld fs [] [])) as [r w1] eqn:Hrun.
  rewrite (fetch_of_producer _ _ _ _ _ _ _ _ _ _ _ Hrun).
  destruct r as [e|[]]; [done|]. by intros [= <- <-].
Qed.

Lemma fetch_finished_steps spec output_dir fs url tok project steps ls w :
  api_url_of (spec_host spec) = inr url →
  token_of OSF_TOKEN (spec_host spec) = inr tok →
  osf_project tok url (spec_project_id spec) = inr project →
  entries project (spec_path spec) = inr steps →
  consumer spec output_dir fs = (ls, Finished, w) →
  ls = w_queue w
  ∧ run_steps output_dir steps
      (mkWorld fs [] [fetching_line (spec_path spec) (spec_project_id spec) url])
    = (inr tt, w).
Proof.
  intros Hurl Htok Hproj Hroots Hfin.
  apply fetch_finished_inv in Hfin as [Hrun ->]. split; [done|].
  by rewrite (fetch_linear _ _ _ _ _ _ spec output_dir url tok project steps
                Hurl Htok Hproj Hroots (mkWorld fs [] [])) in Hrun.
Qed.

(** X11.  A fetch that returns has reported and copied every file of its
    walk: after the first line, the lines are those of the files in walk
    order, one each, the copies are theirs in the same order, and no entry
    of the walk had a separator in its name or a failing listing. *)
Theorem finished_fetch_reports_all spec output_dir fs url tok project steps ls w :
  api_url_of (spec_host spec) = inr url →
  token_of OSF_TOKEN (spec_host spec) = inr tok →
  osf_project tok url (spec_project_id spec) = inr project →
  entries project (spec_path spec) = inr steps →
  consumer spec output_dir fs = (ls, Finished, w) →
  ls = fetching_line (spec_path spec) (spec_project_id spec) url
         :: (copy_line output_dir <$> step_copies steps)
  ∧ w_copied w = copy_write output_dir <$> step_copies steps
  ∧ Forall (fun s => offending s = None ∧ ∀ e, s ≠ SRaise e) steps.
Proof.
  intros Hurl Htok Hproj Hroots Hfin.
  destruct (fetch_finished_steps _ _ _ _ _ _ _ _ _ Hurl Htok Hproj Hroots Hfin)
    as [-> Hrun].
  destruct (run_steps_done _ _ _ _ Hrun) as (Hq & Hc & Hall & _).
  by rewrite Hq, Hc.
Qed.

(** X12.  After a fetch that returns, every file of its walk is present
    locally at its path under the output directory, in a directory that
    exists. *)
Theorem finished_fetch_files_exist spec output_dir fs url tok project steps ls w
    local_dir file_ :
  api_url_of (spec_host spec) = inr url →
  token_of OSF_TOKEN (spec_host spec) = inr tok →
  osf_project tok url (spec_project_id spec) = inr project →
  entries project (spec_path spec) = inr steps →
  consumer spec output_dir fs = (ls, Finished, w) →
  SFile local_dir file_ ∈ steps →
  match local_dir with
  | Some d => path_join output_dir d
  | None => output_dir
  end ∈ fs_dirs (w_fs w)
  ∧ is_Some (fs_files (w_fs w)
               !! path_join output_dir (local_path_of local_dir (file_name file_))).
Proof.
  intros Hurl Htok Hproj Hroots Hfin Hin.
  destruct (fetch_finished_steps _ _ _ _ _ _ _ _ _ Hurl Htok Hproj Hroots Hfin)
    as [_ Hrun].
  destruct (run_steps_done _ _ _ _ Hrun) as (_ & _ & _ & Hex). by apply Hex.
Qed.

(** X15.  Trailing slashes of a non-empty sub-path do not change what is
    walked. *)
Theorem trailing_slash_ignored project path :
  PyStr.nonempty path = true →
  entries project (path ++ "/") = entries project path.
Proof.
  intros Hne. unfold roots_order. rewrite Hne.
  assert (PyStr.nonempty (path ++ "/") = true) as -> by by destruct path.
  unfold resolve. change (path ++ "/") with (path ++ String slash "").
  by rewrite (rstrip_app_char slash path).
Qed.

(** X16.  A failure to get the token, to find the project or to resolve a
    non-empty sub-path ends the fetch right after its first line: nothing
    is created on the filesystem and nothing is copied. *)
Theorem early_failure_writes_nothing spec output_dir fs url e :
  api_url_of (spec_host spec) = inr url →
  token_of OSF_TOKEN (spec_host spec) = inl e
  ∨ (∃ tok, token_of OSF_TOKEN (spec_host spec) = inr tok
            ∧ osf_project tok url (spec_project_id spec) = inl e)
  ∨ (∃ tok project, token_of OSF_TOKEN (spec_host spec) = inr tok
            ∧ osf_project tok url (spec_project_id spec) = inr project
            ∧ PyStr.nonempty (spec_path spec) = true
            ∧ resolved project (spec_path spec) = inl e) →
  consumer spec output_dir fs
  = ([fetching_line (spec_path spec) (spec_project_id spec) url],
     Raised e,
     mkWorld fs [] [fetching_line (spec_path spec) (spec_project_id spec) url]).
Proof.
  intros Hurl Hfail.
  assert (producer spec output_dir (mkWorld fs [] [])
          = (inl e, mkWorld fs [] [fetching_line (spec_path spec) (spec_project_id spec) url]))
    as Hrun.
  { unfold _fetch. rewrite Hurl. unfold bind, lift, put.
    destruct Hfail
      as [Htok|[(tok & Htok & Hproj)|(tok & project & Htok & Hproj & Hne & Hres)]].
    - by rewrite Htok.
    - by rewrite Htok, Hproj.
    - by rewrite Htok, Hproj, Hne, Hres. }
  by rewrite (fetch_of_producer _ _ _ _ _ _ _ _ _ _ _ Hrun).
Qed.

(** X17.  When the host has no usable ["api"] value, the fetch raises
    before it queues anything: no line is yielded and nothing is done. *)
Theorem missing_api_yields_nothing spec output_dir fs e :
  api_url_of (spec_host spec) = inl e →
  consumer spec output_dir fs = ([], Raised e, mkWorld fs [] []).
Proof.
  intros Hurl.
  assert (producer spec output_dir (mkWorld fs [] []) = (inl e, mkWorld fs [] [])) as Hrun.
  { unfold _fetch. by rewrite Hurl. }
  by rewrite (fetch_of_producer _ _ _ _ _ _ _ _ _ _ _ Hrun).
Qed.

(** X18.  A project without storages, fetched with an empty sub-path,
    gives the first line and nothing else, and the fetch returns. *)
Theorem empty_project_fetch spec output_dir fs url tok project :
  api_url_of (spec_host spec) = inr url →
  token_of OSF_TOKEN (spec_host spec) = inr tok →
  osf_project tok url (spec_project_id spec) = inr project →
  spec_path spec = "" →
  project_storages project = ([], None) →
  consumer spec output_dir fs
  = ([fetching_line "" (spec_project_id spec) url], Finished,
     mkWorld fs [] [fetching_line "" (spec_project_id spec) url]).
Proof.
  intros Hurl Htok Hproj Hpath Hst.
  assert (producer spec output_dir (mkWorld fs [] [])
          = (inr tt, mkWorld fs [] [fetching_line "" (spec_project_id spec) url])) as Hrun.
  { unfold _fetch. rewrite Hurl, Hpath. unfold bind, lift, put.
    by rewrite Htok, Hproj, Hst. }
  by rewrite (fetch_of_producer _ _ _ _ _ _ _ _ _ _ _ Hrun).
Qed.

Lemma copies_inside_fetch spec output_dir :
  (PyStr.nonempty (spec_path spec) = false →
   ∀ project storage, storage ∈ fst (project_storages project) →
                      relative (folder_name storage)) →
  copies_inside output_dir (producer spec output_dir).
Proof.
  intros Hnames. unfold _fetch.
  apply copies_inside_bind.
  { apply copies_inside_same. by intros w r w' [= _ <-]. }
  intros url. apply copies_inside_bind.
  { apply copies_inside_same. by intros w r w' [= _ <-]. }
  intros _. apply copies_inside_bind.
  { apply copies_inside_same. by intros w r w' [= _ <-]. }
  intros tok. apply copies_inside_bind.
  { apply copies_inside_same. by intros w r w' [= _ <-]. }
  intros project. destruct (PyStr.nonempty (spec_path spec)).
  - apply copies_inside_bind.
    { apply copies_inside_same. by intros w r w' [= _ <-]. }
    intros storage. by apply copies_inside_fetch_storage.
  - apply copies_inside_bind; [|intros _; apply copies_inside_raise_opt].
    apply copies_inside_for_each, Forall_forall. intros storage Hin.
    apply copies_inside_fetch_storage. intros d [= <-]. by eapply Hnames.
Qed.

(** X19.  Every copy a fetch makes goes to a relative path joined to the
    output directory, however the fetch ends, when the sub-path is
    non-empty or no storage name of the project starts with ["/"]. *)
Theorem fetch_copies_inside spec output_dir fs :
  PyStr.nonempty (spec_path spec) = true
  ∨ (∀ project storage, storage ∈ fst (project_storages project) →
                        relative (folder_name storage)) →
  Forall (fun c => ∃ rel, relative rel ∧ c.1 = join_prefix output_dir ++ rel)
         (w_copied (consumer spec output_dir fs).2).
Proof.
  intros Hcase.
  destruct (producer spec output_dir (mkWorld fs [] [])) as [r w] eqn:Hrun.
  rewrite (fetch_of_producer _ _ _ _ _ _ _ _ _ _ _ Hrun). cbn [snd].
  destruct (copies_inside_fetch spec output_dir) with (w := mkWorld fs [] []) (r := r)
    (w' := w) as (added & Hadd & Hall); [|done|].
  - destruct Hcase as [Hne|Hnames]; [by rewrite Hne|by intros _].
  - by rewrite Hadd.
Qed.

(** X20.  In a fetch with an empty sub-path that returns, a file of a
    storage whose name starts with ["/"] is copied to the storage name
    joined with the file name, a path that does not depend on the output
    directory. *)
Theorem absolute_storage_name_escapes spec output_dir fs url tok project steps ls w
    storage file_ :
  api_url_of (spec_host spec) = inr url →
  token_of OSF_TOKEN (spec_host spec) = inr tok →
  osf_project tok url (spec_project_id spec) = inr project →
  PyStr.nonempty (spec_path spec) = false →
  entries project (spec_path spec) = inr steps →
  consumer spec output_dir fs = (ls, Finished, w) →
  storage ∈ fst (project_storages project) →
  file_ ∈ files storage →
  PyStr.startswith (folder_name storage) "/" = true →
  (path_join (folder_name storage) (file_name file_), file_data file_) ∈ w_copied w
  ∧ is_Some (fs_files (w_fs w) !! path_join (folder_name storage) (file_name file_)).
Proof.
  intros Hurl Htok Hproj Hne Hroots Hfin Hst Hf Habs.
  assert (SFile (Some (folder_name storage)) file_ ∈ steps) as Hin.
  { unfold roots_order in Hroots. rewrite Hne in Hroots. injection Hroots as <-.
    apply elem_of_app. left. apply list_elem_of_bind. exists storage.
    split; [|done]. by apply elem_of_walk_order_file. }
  destruct (fetch_finished_steps _ _ _ _ _ _ _ _ _ Hurl Htok Hproj Hroots Hfin)
    as [_ Hrun].
  destruct (run_steps_done _ _ _ _ Hrun) as (_ & Hc & Hall & Hex).
  rewrite Forall_forall in Hall. destruct (Hall _ Hin) as [Hoff _].
  cbn [offending] in Hoff.
  destruct (has_separator (file_name file_)) eqn:Hsep; [done|].
  apply orb_false_elim in Hsep as [Hsep _].
  pose proof (absolute_path_join _ _ Habs Hsep) as Habs'.
  destruct (Hex _ _ Hin) as [_ Hfile]. cbn [local_path_of] in Hfile.
  rewrite (path_join_absolute_right output_dir _ Habs') in Hfile.
  split; [|done]. rewrite Hc. cbn [app].
  apply list_elem_of_fmap. exists (file_, path_join (folder_name storage) (file_name file_)).
  split.
  - unfold copy_write. cbn [fst snd].
    by rewrite (path_join_absolute_right output_dir _ Habs').
  - unfold step_copies. apply list_elem_of_bind.
    exists (SFile (Some (folder_name storage)) file_). split; [|done].
    cbn [local_path_of]. apply list_elem_of_here.
Qed.

End FetchMore.

(* ===================================================================== *)
(** ** Further sample projects *)
(* ===================================================================== *)

Module MoreSamples.

Definition srv : Folder := mkFolder "/srv" [Sample.a_txt] None [] None.

Definition remote : gmap string TreeClient.Project :=
  {[ "abc" := [Sample.osfstorage]; "empty" := []; "abs" := [srv] ]}.

Definition fetch (spec : FetchSpec) (output_dir : string) (fs : FS) :=
  fetch TreeClient.Project (TreeClient.osf_project remote) TreeClient.project_storage
        TreeClient.project_storages TreeClient.find_by_path None spec output_dir fs.

Definition whole : FetchSpec := mkFetchSpec "abc" "" Sample.default_host "v1".

Definition absolute : FetchSpec := mkFetchSpec "abs" "" Sample.default_host "v1".

Definition api_url : string := "https://api.test.some.host.nii.ac.jp/v2".

End MoreSamples.

Lemma finished_fetch_reports_all_witness :
  (MoreSamples.fetch MoreSamples.whole "out" Sample.empty_fs).1.1
  = fetching_line "" "abc" MoreSamples.api_url
      :: (copy_line "out" <$>
            step_copies [SFile (Some "osfstorage") Sample.a_txt; SEnter "dir";
                         SFile (Some "osfstorage/dir") Sample.b_txt])
  ∧ w_copied (MoreSamples.fetch MoreSamples.whole "out" Sample.empty_fs).2
    = copy_write "out" <$>
        step_copies [SFile (Some "osfstorage") Sample.a_txt; SEnter "dir";
                     SFile (Some "osfstorage/dir") Sample.b_txt]
  ∧ Forall (fun s => offending s = None ∧ ∀ e, s ≠ SRaise e)
           [SFile (Some "osfstorage") Sample.a_txt; SEnter "dir";
            SFile (Some "osfstorage/dir") Sample.b_txt].
Proof.
  apply (finished_fetch_reports_all TreeClient.Project
           (TreeClient.osf_project MoreSamples.remote) TreeClient.project_storage
           TreeClient.project_storages TreeClient.find_by_path None
           MoreSamples.whole "out" Sample.empty_fs MoreSamples.api_url None
           [Sample.osfstorage]).
  - reflexivity.
  - reflexivity.
  - reflexivity.
  - reflexivity.
  - reflexivity.
Defined.

Lemma finished_fetch_files_exist_witness :
  path_join "out" "osfstorage/dir"
  ∈ fs_dirs (w_fs (MoreSamples.fetch MoreSamples.whole "out" Sample.empty_fs).2)
  ∧ is_Some (fs_files (w_fs (MoreSamples.fetch MoreSamples.whole "out" Sample.empty_fs).2)
               !! path_join "out" (local_path_of (Some "osfstorage/dir") "b.txt")).
Proof.
  apply (finished_fetch_files_exist TreeClient.Project
           (TreeClient.osf_project MoreSamples.remote) TreeClient.project_storage
           TreeClient.project_storages TreeClient.find_by_path None
           MoreSamples.whole "out" Sample.empty_fs MoreSamples.api_url None
           [Sample.osfstorage]
           [SFile (Some "osfstorage") Sample.a_txt; SEnter "dir";
            SFile (Some "osfstorage/dir") Sample.b_txt]
           (MoreSamples.fetch MoreSamples.whole "out" Sample.empty_fs).1.1
           (MoreSamples.fetch MoreSamples.whole "out" Sample.empty_fs).2
           (Some "osfstorage/dir") Sample.b_txt).
  - reflexivity.
  - reflexivity.
  - reflexivity.
  - reflexivity.
  - reflexivity.
  - apply list_elem_of_further, list_elem_of_further, list_elem_of_here.
Defined.

Lemma trailing_slash_ignored_witness :
  roots_order TreeClient.Project TreeClient.project_storage TreeClient.project_storages
              TreeClient.find_by_path [Sample.osfstorage] "osfstorage/dir/"
  = roots_order TreeClient.Project TreeClient.project_storage TreeClient.project_storages
                TreeClient.find_by_path [Sample.osfstorage] "osfstorage/dir".
Proof.
  apply (trailing_slash_ignored TreeClient.Project TreeClient.project_storage
           TreeClient.project_storages TreeClient.find_by_path
           [Sample.osfstorage] "osfstorage/dir").
  reflexivity.
Defined.

Lemma early_failure_writes_nothing_witness :
  MoreSamples.fetch (mkFetchSpec "abc" "nowhere" Sample.default_host "v1") "out"
                    Sample.empty_fs
  = ([fetching_line "nowhere" "abc" MoreSamples.api_url],
     Raised (RuntimeError "Project has no storage provider 'nowhere'"),
     mkWorld Sample.empty_fs [] [fetching_line "nowhere" "abc" MoreSamples.api_url]).
Proof.
  apply (early_failure_writes_nothing TreeClient.Project
           (TreeClient.osf_project MoreSamples.remote) TreeClient.project_storage
           TreeClient.project_storages TreeClient.find_by_path None
           (mkFetchSpec "abc" "nowhere" Sample.default_host "v1") "out" Sample.empty_fs
           MoreSamples.api_url).
  - reflexivity.
  - right. right. exists None, [Sample.osfstorage].
    split; [reflexivity|]. split; [reflexivity|]. split; reflexivity.
Defined.

Lemma missing_api_yields_nothing_witness :
  MoreSamples.fetch (mkFetchSpec "abc" "" (JObj [("hostname", JArr [])]) "v1") "out"
                    Sample.empty_fs
  = ([], Raised (KeyError "api"), mkWorld Sample.empty_fs [] []).
Proof.
  apply (missing_api_yields_nothing TreeClient.Project
           (TreeClient.osf_project MoreSamples.remote) TreeClient.project_storage
           TreeClient.project_storages TreeClient.find_by_path None
           (mkFetchSpec "abc" "" (JObj [("hostname", JArr [])]) "v1") "out"
           Sample.empty_fs (KeyError "api")).
  reflexivity.
Defined.

Lemma empty_project_fetch_witness :
  MoreSamples.fetch (mkFetchSpec "empty" "" Sample.default_host "v1") "out" Sample.empty_fs
  = ([fetching_line "" "empty" MoreSamples.api_url], Finished,
     mkWorld Sample.empty_fs [] [fetching_line "" "empty" MoreSamples.api_url]).
Proof.
  apply (empty_project_fetch TreeClient.Project
           (TreeClient.osf_project MoreSamples.remote) TreeClient.project_storage
           TreeClient.project_storages TreeClient.find_by_path None
           (mkFetchSpec "empty" "" Sample.default_host "v1") "out" Sample.empty_fs
           MoreSamples.api_url None []).
  - reflexivity.
  - reflexivity.
  - reflexivity.
  - reflexivity.
  - reflexivity.
Defined.

Lemma fetch_copies_inside_witness :
  Forall (fun c => ∃ rel, relative rel ∧ c.1 = join_prefix "out" ++ rel)
         (w_copied (MoreSamples.fetch (mkFetchSpec "abc" "osfstorage" Sample.default_host "v1")
                                      "out" Sample.empty_fs).2).
Proof.
  apply (fetch_copies_inside TreeClient.Project
           (TreeClient.osf_project MoreSamples.remote) TreeClient.project_storage
           TreeClient.project_storages TreeClient.find_by_path None
           (mkFetchSpec "abc" "osfstorage" Sample.default_host "v1") "out" Sample.empty_fs).
  left. reflexivity.
Defined.

Lemma absolute_storage_name_escapes_witness :
  (path_join "/srv" "a.txt", [Byte.x68; Byte.x69])
  ∈ w_copied (MoreSamples.fetch MoreSamples.absolute "out" Sample.empty_fs).2
  ∧ is_Some (fs_files (w_fs (MoreSamples.fetch MoreSamples.absolute "out" Sample.empty_fs).2)
               !! path_join "/srv" "a.txt").
Proof.
  apply (absolute_storage_name_escapes TreeClient.Project
           (TreeClient.osf_project MoreSamples.remote) TreeClient.project_storage
           TreeClient.project_storages TreeClient.find_by_path None
           MoreSamples.absolute "out" Sample.empty_fs MoreSamples.api_url None
           [MoreSamples.srv] [SFile (Some "/srv") Sample.a_txt]
           (MoreSamples.fetch MoreSamples.absolute "out" Sample.empty_fs).1.1
           (MoreSamples.fetch MoreSamples.absolute "out" Sample.empty_fs).2
           MoreSamples.srv Sample.a_txt).
  - reflexivity.
  - reflexivity.
  - reflexivity.
  - reflexivity.
  - reflexivity.
  - reflexivity.
  - apply list_elem_of_here.
  - apply list_elem_of_here.
  - reflexivity.
Defined.

(* ===================================================================== *)
(** ** Further properties: the project id and slash-only sub-paths *)
(* ===================================================================== *)

(** X8.  The project id of the spec a matching [detect] returns never
    holds a ["/"], and the instance stores the same id. *)
Theorem detect_project_id_no_slash urlparse_path uuid1 self clock source ref
    spec self' clock' :
  detect urlparse_path uuid1 self clock source ref = inr (Some spec, self', clock') →
  PyStr.contains slash (spec_project_id spec) = false
  ∧ project_id self' = Some (spec_project_id spec).
Proof.
  intros H. apply detect_inv in H as (upath & _ & Hp & _ & _ & _ & ->).
  split; [|done]. rewrite Hp. apply parse_path_project_id_no_slash.
Qed.

Lemma detect_project_id_no_slash_witness :
  PyStr.contains slash "abc" = false
  ∧ project_id (mkRDM default_hosts (Some "abc") (Some "x/y") (Some "v1")) = Some "abc".
Proof.
  apply (detect_project_id_no_slash Sample.urlparse_path Sample.uuid1 Sample.self 0
           "https://test.some.host.nii.ac.jp/abc/x/y" (Some "v1")
           (mkFetchSpec "abc" "x/y" Sample.default_host "v1")
           (mkRDM default_hosts (Some "abc") (Some "x/y") (Some "v1")) 0).
  reflexivity.
Defined.

(** X21.  A sub-path made of slashes only is not treated as empty: the
    fetch asks the project for the storage with the empty name instead of
    walking every storage. *)
Theorem slash_only_subpath Project project_storage project_storages find_by_path
    (project : Project) path :
  PyStr.nonempty path = true →
  PyStr.rstrip slash path = "" →
  roots_order Project project_storage project_storages find_by_path project path
  = rbind (project_storage project "") (fun node => inr (walk_order node None)).
Proof.
  intros Hne Hstrip. unfold roots_order, resolve. rewrite Hne, Hstrip.
  cbn [PyStr.contains rbind]. by destruct (project_storage project "").
Qed.

Lemma slash_only_subpath_witness :
  roots_order TreeClient.Project TreeClient.project_storage TreeClient.project_storages
              TreeClient.find_by_path [Sample.osfstorage] "//"
  = rbind (TreeClient.project_storage [Sample.osfstorage] "")
          (fun node => inr (walk_order node None)).
Proof.
  apply (slash_only_subpath TreeClient.Project TreeClient.project_storage
           TreeClient.project_storages TreeClient.find_by_path [Sample.osfstorage] "//").
  - reflexivity.
  - reflexivity.
Defined.
